(** * telegrambot: the inline audio bot, embedded and verified

    The repository holds three revisions of the same program:

    - [IndexJs1]: src/index.js, first document (lines 1-124), the plain
      URL-audio bot;
    - [IndexJs2]: src/index.js, second document (lines 125-353), the
      ingestion variant with the [/start] payload;
    - [Part000]:  src/unnamed/part_000, with the voice / document / audio
      shapes and the webhook registration with [allowed_updates].

    Lines 1-47 (configuration, [normalize], [searchAudios]) are the same
    text in [IndexJs1] and [Part000]; they are embedded once, in [Shared].
    The second document differs there in one place, the haystack of its
    [searchAudios].

    Scope of the embedding.  JavaScript values are the scalars of
    [JsValue]; a catalog entry is the record of the properties the program
    reads.  Strings are sequences of characters.  [Js.toLowerCase] maps the
    letters A-Z, which is the lower-casing of ASCII text and the folding of
    the [/i] pattern of line 281; where a statement depends on how text
    outside A-Z is lower-cased, [String.prototype.toLowerCase] is a
    parameter ([Cased]).  Numbers are the integer-valued ones, which
    JavaScript prints in plain decimal below 10^21.  Console output is not
    traced, and an awaited call is taken to settle: it resolves or
    rejects. *)

From Stdlib Require Import List String Ascii ZArith Bool Lia DecimalString.
From Stdlib Require DecimalPos DecimalZ.
Import ListNotations.

Local Open Scope string_scope.
Local Open Scope Z_scope.

(* ================================================================== *)
(** ** JavaScript values and the primitives the program uses *)

Module Js.

Inductive JsValue : Type :=
| JUndefined
| JNull
| JBool (b : bool)
| JNum (n : Z)
| JStr (s : string).

(** ToBoolean. *)
Definition truthy (v : JsValue) : bool :=
  match v with
  | JUndefined | JNull => false
  | JBool b => b
  | JNum n => negb (n =? 0)
  | JStr s => negb (String.eqb s "")
  end.

(** [x || y]. *)
Definition or (x y : JsValue) : JsValue := if truthy x then x else y.

(** ToString, as a template literal [`${v}`] applies it. *)
Definition toString (v : JsValue) : string :=
  match v with
  | JUndefined => "undefined"
  | JNull => "null"
  | JBool true => "true"
  | JBool false => "false"
  | JNum n => NilZero.string_of_int (Z.to_int n)
  | JStr s => s
  end.

(** [x === y]. *)
Definition strict_eq (x y : JsValue) : bool :=
  match x, y with
  | JUndefined, JUndefined | JNull, JNull => true
  | JBool a, JBool b => Bool.eqb a b
  | JNum a, JNum b => a =? b
  | JStr a, JStr b => String.eqb a b
  | _, _ => false
  end.

Definition lower_char (c : ascii) : ascii :=
  let n := nat_of_ascii c in
  if (65 <=? n)%nat && (n <=? 90)%nat then ascii_of_nat (n + 32) else c.

(** [String.prototype.toLowerCase] on ASCII text: the letters A-Z are
    mapped, every other character is kept. *)
Fixpoint toLowerCase (s : string) : string :=
  match s with
  | EmptyString => EmptyString
  | String c s' => String (lower_char c) (toLowerCase s')
  end.

(** [s.includes(sub)]: [sub] occurs in [s] at some position. *)
Fixpoint includes (s sub : string) : bool :=
  String.prefix sub s
  || match s with
     | EmptyString => false
     | String _ s' => includes s' sub
     end.

(** Relative index of [Array.prototype.slice]: a negative index counts
    from the end, and the result is clamped to [0 .. len]. *)
Definition clamp_index (len rel : Z) : Z :=
  if rel <? 0 then Z.max (len + rel) 0 else Z.min rel len.

(** [arr.slice(start, end)]. *)
Definition slice {A : Type} (arr : list A) (start end_ : Z) : list A :=
  let len := Z.of_nat (List.length arr) in
  let k := clamp_index len start in
  let final := clamp_index len end_ in
  firstn (Z.to_nat (final - k)) (skipn (Z.to_nat k) arr).

(** [arr.map((a, idx) => f(a, idx))], the index starting at [from]. *)
Fixpoint map_idx_from {A B : Type} (f : A -> nat -> B) (from : nat)
         (arr : list A) : list B :=
  match arr with
  | [] => []
  | a :: rest => f a from :: map_idx_from f (S from) rest
  end.

Definition map_idx {A B : Type} (f : A -> nat -> B) (arr : list A) : list B :=
  map_idx_from f 0%nat arr.

(** [arr.filter(Boolean)] on an array of objects and [null]s: the objects
    (all truthy) are kept, the [null]s dropped. *)
Fixpoint filter_Boolean {A : Type} (arr : list (option A)) : list A :=
  match arr with
  | [] => []
  | Some x :: rest => x :: filter_Boolean rest
  | None :: rest => filter_Boolean rest
  end.

(** [s.replace(/\/$/, '')]: one trailing slash, if any, is removed. *)
Fixpoint strip_trailing_slash (s : string) : string :=
  match s with
  | EmptyString => EmptyString
  | String c s' =>
      if Ascii.eqb c "/" && String.eqb s' "" then EmptyString
      else String c (strip_trailing_slash s')
  end.

(** [parts.join(sep)]. *)
Fixpoint join (sep : string) (parts : list string) : string :=
  match parts with
  | [] => ""
  | [p] => p
  | p :: rest => p ++ sep ++ join sep rest
  end.

Definition nl : string := String (ascii_of_nat 10) EmptyString.

End Js.
Import Js.

(* ================================================================== *)
(** ** Data model *)

(** A catalog entry: one object of data/audios.json, with the properties
    the program reads.  A property the object does not carry is
    [JUndefined]. *)
Record Entry : Type := mkEntry {
  id : JsValue;
  file_unique_id : JsValue;
  title : JsValue;
  performer : JsValue;
  caption : JsValue;
  description : JsValue;
  url : JsValue;
  file_id : JsValue;
  voice_file_id : JsValue;
  document_file_id : JsValue;
  tg_type : JsValue;
  is_voice : JsValue
}.

(** Property lookup in an object literal; as with [JSON.parse], the last
    binding of a key is the one that counts. *)
Fixpoint prop (obj : list (string * JsValue)) (key : string) : JsValue :=
  match obj with
  | [] => JUndefined
  | (k, v) :: rest =>
      match prop rest key with
      | JUndefined => if String.eqb k key then v else JUndefined
      | later => later
      end
  end.

Definition entry_of (obj : list (string * JsValue)) : Entry :=
  {| id := prop obj "id";
     file_unique_id := prop obj "file_unique_id";
     title := prop obj "title";
     performer := prop obj "performer";
     caption := prop obj "caption";
     description := prop obj "description";
     url := prop obj "url";
     file_id := prop obj "file_id";
     voice_file_id := prop obj "voice_file_id";
     document_file_id := prop obj "document_file_id";
     tg_type := prop obj "tg_type";
     is_voice := prop obj "is_voice" |}.

(** The inline-result descriptors handed to [answerInlineQuery]. *)
Inductive InlineResult : Type :=
| ResVoice (rid : string) (voice_file_id title : JsValue)
| ResDocument (rid : string) (document_file_id title caption description : JsValue)
| ResCachedAudio (rid : string) (audio_file_id caption : JsValue)
| ResUrlAudio (rid : string) (audio_url title performer caption : JsValue).

(** The [type] property of a descriptor. *)
Definition result_type (r : InlineResult) : string :=
  match r with
  | ResVoice _ _ _ => "voice"
  | ResDocument _ _ _ _ _ => "document"
  | ResCachedAudio _ _ _ | ResUrlAudio _ _ _ _ _ => "audio"
  end.

(** The [id] property of a descriptor. *)
Definition result_id (r : InlineResult) : string :=
  match r with
  | ResVoice i _ _ | ResDocument i _ _ _ _
  | ResCachedAudio i _ _ | ResUrlAudio i _ _ _ _ => i
  end.

(* ================================================================== *)
(** ** Effects

    A handler or [main] issues calls in program order.  A call to the
    upstream service is awaited and may reject; what follows a rejected
    await does not run.  An awaited call is taken to settle; a trace is
    what the program has done once its awaited calls have settled.
    Console output is left out of the trace. *)

Inductive Effect : Type :=
| Reply (text : string)
| AnswerInlineQuery (results : list InlineResult) (cache_time : Z)
                    (is_personal : bool)
| ResJson (ok : bool) (mode : string)
| GetMe
| Launch
| AppListen (port : JsValue)
| AppUseJson
| AppUseWebhookCallback (path : string)
| SetWebhook (webhookUrl : string) (allowed_updates : option (list string))
| ProcessExit (code : Z).

Inductive Outcome : Type := Resolved | Rejected.

Definition Run : Type := (list Effect * Outcome)%type.

(** The upstream service: which awaited calls resolve. *)
Definition Upstream : Type := Effect -> bool.

Definition done : Run := ([], Resolved).

(** A synchronous call. *)
Definition emit (e : Effect) : Run := ([e], Resolved).

(** [await call]. *)
Definition await (up : Upstream) (e : Effect) : Run :=
  ([e], if up e then Resolved else Rejected).

(** Sequencing: the continuation runs only after a resolved step. *)
Definition andThen (r k : Run) : Run :=
  match r with
  | (es, Resolved) => ((es ++ fst k)%list, snd k)
  | (es, Rejected) => (es, Rejected)
  end.

Notation "r ;; k" := (andThen r k) (at level 61, right associativity).

(** [try { r } catch { }]. *)
Definition try_catch (r : Run) : Run := (fst r, Resolved).

(** [r.catch(() => process.exit(1))]. *)
Definition catch_exit (r : Run) : Run :=
  match r with
  | (es, Rejected) => ((es ++ [ProcessExit 1])%list, Resolved)
  | _ => r
  end.

(* ================================================================== *)
(** ** The process and its inputs *)

(** [process.env]. *)
Definition Env : Type := string -> option string.

(** A string that may be undefined, as a value. *)
Definition of_option (o : option string) : JsValue :=
  match o with
  | Some s => JStr s
  | None => JUndefined
  end.

(** The module-level [const] and [let] bindings, once loading is over.
    No handler assigns to any of them. *)
Record Bindings : Type := mkBindings {
  BOT_TOKEN : JsValue;
  WEBHOOK_DOMAIN : JsValue;
  WEBHOOK_SECRET : string;
  WEBHOOK_PATH : string;
  PORT : JsValue;
  USE_POLLING : bool;
  audioLibrary : list Entry
}.

Inductive Boot : Type :=
| Exit (code : Z)
| Loaded (g : Bindings).

Record Chat : Type := mkChat { chat_id : Z; chat_type : string }.

Record User : Type := mkUser { user_id : Z; username : option string }.

(** What a handler reads from its context. *)
Record Ctx : Type := mkCtx {
  chat : option Chat;
  from : option User;
  startPayload : option string;
  inlineQuery : option string       (* [ctx.inlineQuery?.query] *)
}.

Inductive Update : Type :=
| StartCommand (ctx : Ctx)
| IdCommand (ctx : Ctx)
| InlineQuery (ctx : Ctx)
| ChosenInlineResult (ctx : Ctx).

Inductive Request : Type :=
| HealthGet
| Incoming (u : Update).

(** [o || ''] for a string that may be undefined. *)
Definition or_empty (o : option string) : string :=
  match o with
  | Some s => s
  | None => ""
  end.

(* ================================================================== *)
(** ** Lines 1-47 of src/index.js (first document) and of part_000 *)

Module Shared.

(** Lines 7-33: the bindings, or [process.exit(1)].  [random_hex] is the
    draw of [crypto.randomBytes(8).toString('hex')]; [file] is the parsed
    data/audios.json, [None] when reading or parsing throws. *)
Definition load (env : Env) (random_hex : string)
           (file : option (list Entry)) : Boot :=
  let token := of_option (env "BOT_TOKEN") in
  if negb (truthy token) then Exit 1
  else
    let domain := of_option (env "WEBHOOK_DOMAIN") in
    let secret := toString (or (of_option (env "WEBHOOK_SECRET")) (JStr random_hex)) in
    let use_polling :=
      strict_eq (of_option (env "USE_POLLING")) (JStr "true")
      || (negb (truthy domain)
          && negb (strict_eq (of_option (env "NODE_ENV")) (JStr "production"))) in
    match file with
    | None => Exit 1
    | Some lib =>
        Loaded {| BOT_TOKEN := token;
                  WEBHOOK_DOMAIN := domain;
                  WEBHOOK_SECRET := secret;
                  WEBHOOK_PATH := "/telegraf/" ++ secret;
                  PORT := or (of_option (env "PORT")) (JNum 3000);
                  USE_POLLING := use_polling;
                  audioLibrary := lib |}
    end.

Definition normalize (s : JsValue) : string :=
  toLowerCase (toString (or s (JStr ""))).

(** The haystack of line 43: [`${a.title} ${a.performer || ''}`]. *)
Definition hay (a : Entry) : string :=
  toString (title a) ++ " " ++ toString (or (performer a) (JStr "")).

(** Lines 39-47.  The default [limit = 25] of the signature stands for an
    omitted argument; every call of the program passes 25. *)
Definition searchAudios (audioLibrary : list Entry) (query : JsValue)
           (limit : Z) : list Entry :=
  let q := normalize query in
  if negb (truthy (JStr q)) then slice audioLibrary 0 limit
  else
    let results :=
      filter (fun a => includes (normalize (JStr (hay a))) q) audioLibrary in
    slice results 0 limit.

(** The health endpoint, [app.get('/')]. *)
Definition health (g : Bindings) : Run :=
  emit (ResJson true (if USE_POLLING g then "polling" else "webhook")).

End Shared.

(* ================================================================== *)
(** ** src/index.js, first document *)

Module IndexJs1.

Definition load := Shared.load.
Definition normalize := Shared.normalize.
Definition searchAudios := Shared.searchAudios.

Definition usage : string :=
  "Привет! Я инлайн-бот для отправки аудио." ++ nl ++
  "Напиши в любом чате: @имя_бота запрос" ++ nl ++
  "и выбери трек из списка.".

(** [bot.start]. *)
Definition on_start (up : Upstream) (ctx : Ctx) : Run :=
  await up (Reply usage).

(** The callback of [items.map], lines 62-69. *)
Definition toInlineResult (a : Entry) (idx : nat) : InlineResult :=
  ResUrlAudio (toString (or (id a) (JNum (Z.of_nat idx))))
              (url a)
              (title a)
              (or (performer a) JUndefined)
              (or (caption a) JUndefined).

Definition inline_results (audioLibrary : list Entry) (ctx : Ctx)
  : list InlineResult :=
  let q := or (of_option (inlineQuery ctx)) (JStr "") in
  let items := searchAudios audioLibrary q 25 in
  map_idx toInlineResult items.

(** [bot.on('inline_query')]. *)
Definition on_inline_query (g : Bindings) (up : Upstream) (ctx : Ctx) : Run :=
  try_catch
    (await up (AnswerInlineQuery (inline_results (audioLibrary g) ctx) 5 true)).

Definition handle (g : Bindings) (up : Upstream) (u : Update) : Run :=
  match u with
  | StartCommand ctx => on_start up ctx
  | IdCommand _ => done                    (* no such command here *)
  | InlineQuery ctx => on_inline_query g up ctx
  | ChosenInlineResult _ => done           (* logged only *)
  end.

(** [WEBHOOK_DOMAIN?.replace(/\/$/, '')]. *)
Definition domain_of (d : JsValue) : JsValue :=
  match d with
  | JStr s => JStr (strip_trailing_slash s)
  | v => v
  end.

Definition main (g : Bindings) (up : Upstream) : Run :=
  if USE_POLLING g then
    await up Launch ;;
    emit (AppListen (PORT g))
  else
    let domain := domain_of (WEBHOOK_DOMAIN g) in
    let webhookUrl := toString domain ++ WEBHOOK_PATH g in
    emit AppUseJson ;;
    emit (AppUseWebhookCallback (WEBHOOK_PATH g)) ;;
    await up (SetWebhook webhookUrl None) ;;
    emit (AppListen (PORT g)).

Definition program (g : Bindings) (up : Upstream) : Run :=
  catch_exit (main g up).

End IndexJs1.

(* ================================================================== *)
(** ** src/index.js, second document (the ingestion variant)

    The [bot.on('message')] handler of lines 254-309 is embedded apart, in
    [Ingest]. *)

Module IndexJs2.

(** Lines 131-161 are the text of lines 7-37 of the first document. *)
Definition load := Shared.load.
Definition normalize := Shared.normalize.

(** Line 167: [`${a.title || ''} ${a.performer || ''}`]. *)
Definition hay (a : Entry) : string :=
  toString (or (title a) (JStr "")) ++ " "
  ++ toString (or (performer a) (JStr "")).

(** Lines 163-171. *)
Definition searchAudios (audioLibrary : list Entry) (query : JsValue)
           (limit : Z) : list Entry :=
  let q := normalize query in
  if negb (truthy (JStr q)) then slice audioLibrary 0 limit
  else
    let results :=
      filter (fun a => includes (normalize (JStr (hay a))) q) audioLibrary in
    slice results 0 limit.

Definition push {A : Type} (arr : list A) (x : A) : list A := app arr [x].

Definition formatIds (ctx : Ctx) : string :=
  let parts := [] in
  let parts :=
    match chat ctx with
    | Some c =>
        push parts ("chat_id: " ++ toString (JNum (chat_id c))
                    ++ " (" ++ chat_type c ++ ")")
    | None => parts
    end in
  let parts :=
    match from ctx with
    | Some u =>
        push parts ("user_id: " ++ toString (JNum (user_id u))
                    ++ (if truthy (of_option (username u))
                        then " (@" ++ or_empty (username u) ++ ")"
                        else ""))
    | None => parts
    end in
  join nl parts.

Definition replyWithIds (up : Upstream) (ctx : Ctx) : Run :=
  try_catch (await up (Reply (formatIds ctx))).

Definition usage : string :=
  "Привет! Я инлайн-бот для отправки аудио." ++ nl ++
  "Напиши в любом чате: @имя_бота запрос" ++ nl ++
  "и выбери трек из списка." ++ nl ++
  "Команда /id — показать chat_id.".

(** [bot.start], lines 191-202. *)
Definition on_start (up : Upstream) (ctx : Ctx) : Run :=
  let payload := or_empty (startPayload ctx) in
  if String.eqb (toLowerCase payload) "id"
     || String.eqb (toLowerCase payload) "getid"
  then replyWithIds up ctx
  else await up (Reply usage).

(** [bot.command('id', replyWithIds)], [bot.command('myid', replyWithIds)]. *)
Definition on_id_command (up : Upstream) (ctx : Ctx) : Run :=
  replyWithIds up ctx.

(** The callback of [items.map], lines 211-231. *)
Definition toInlineResult (a : Entry) (idx : nat) : InlineResult :=
  let rid := toString (or (or (id a) (file_unique_id a)) (JNum (Z.of_nat idx))) in
  if truthy (file_id a) then
    ResCachedAudio rid (file_id a) (or (caption a) JUndefined)
  else
    ResUrlAudio rid (url a)
                (or (title a) (JStr "Audio"))
                (or (performer a) JUndefined)
                (or (caption a) JUndefined).

Definition inline_results (audioLibrary : list Entry) (ctx : Ctx)
  : list InlineResult :=
  let q := or (of_option (inlineQuery ctx)) (JStr "") in
  let items := searchAudios audioLibrary q 25 in
  map_idx toInlineResult items.

Definition on_inline_query (g : Bindings) (up : Upstream) (ctx : Ctx) : Run :=
  try_catch
    (await up (AnswerInlineQuery (inline_results (audioLibrary g) ctx) 5 true)).

Definition handle (g : Bindings) (up : Upstream) (u : Update) : Run :=
  match u with
  | StartCommand ctx => on_start up ctx
  | IdCommand ctx => on_id_command up ctx
  | InlineQuery ctx => on_inline_query g up ctx
  | ChosenInlineResult _ => done
  end.

Definition main (g : Bindings) (up : Upstream) : Run :=
  try_catch (await up GetMe) ;;
  if USE_POLLING g then
    await up Launch ;;
    emit (AppListen (PORT g))
  else
    let domain := IndexJs1.domain_of (WEBHOOK_DOMAIN g) in
    let webhookUrl := toString domain ++ WEBHOOK_PATH g in
    emit AppUseJson ;;
    emit (AppUseWebhookCallback (WEBHOOK_PATH g)) ;;
    await up (SetWebhook webhookUrl None) ;;
    emit (AppListen (PORT g)).

Definition program (g : Bindings) (up : Upstream) : Run :=
  catch_exit (main g up).

End IndexJs2.

(* ================================================================== *)
(** ** [normalize] and [searchAudios] over the engine's lower-casing

    The same lines as in [Shared] and [IndexJs2], with
    [String.prototype.toLowerCase] left as a parameter: what is proved of
    these definitions holds for the lower-casing of every script. *)

Module Cased.

Section Engine.

Variable toLowerCase : string -> string.

(** Lines 35-37. *)
Definition normalize (s : JsValue) : string :=
  toLowerCase (toString (or s (JStr ""))).

(** Lines 39-47 of the first document of src/index.js and of part_000. *)
Definition searchAudios (audioLibrary : list Entry) (query : JsValue)
           (limit : Z) : list Entry :=
  let q := normalize query in
  if negb (truthy (JStr q)) then slice audioLibrary 0 limit
  else
    let results :=
      filter (fun a => includes (normalize (JStr (Shared.hay a))) q)
             audioLibrary in
    slice results 0 limit.

(** Lines 163-171 of src/index.js, the ingestion variant. *)
Definition searchAudios_ingest (audioLibrary : list Entry) (query : JsValue)
           (limit : Z) : list Entry :=
  let q := normalize query in
  if negb (truthy (JStr q)) then slice audioLibrary 0 limit
  else
    let results :=
      filter (fun a => includes (normalize (JStr (IndexJs2.hay a))) q)
             audioLibrary in
    slice results 0 limit.

End Engine.

End Cased.

(* ================================================================== *)
(** ** src/unnamed/part_000 *)

Module Part000.

Definition load := Shared.load.
Definition normalize := Shared.normalize.
Definition searchAudios := Shared.searchAudios.

Definition usage : string := IndexJs1.usage.

(** [bot.start], lines 50-56. *)
Definition on_start (up : Upstream) (ctx : Ctx) : Run :=
  await up (Reply usage).

(** [bot.command(['id','myid'])], lines 58-65. *)
Definition on_id_command (up : Upstream) (ctx : Ctx) : Run :=
  let chatId :=
    match chat ctx with Some c => JNum (chat_id c) | None => JUndefined end in
  let userId :=
    match from ctx with Some u => JNum (user_id u) | None => JUndefined end in
  let username :=
    match from ctx with
    | Some u =>
        if truthy (of_option (username u))
        then " (@" ++ or_empty (username u) ++ ")"
        else ""
    | None => ""
    end in
  try_catch
    (await up (Reply ("chat_id: " ++ toString chatId ++ nl
                      ++ "user_id: " ++ toString userId ++ username))).

(** Line 76: the entry is to go out as a voice message. *)
Definition voice_tagged (a : Entry) : bool :=
  strict_eq (tg_type a) (JStr "voice")
  || strict_eq (is_voice a) (JBool true)
  || truthy (voice_file_id a).

(** Line 87: the entry is to go out as a document. *)
Definition document_tagged (a : Entry) : bool :=
  strict_eq (tg_type a) (JStr "document") || truthy (document_file_id a).

(** The callback of [items.map], lines 73-120; [None] is its [null]. *)
Definition toInlineResult (a : Entry) (idx : nat) : option InlineResult :=
  let rid := toString (or (or (id a) (file_unique_id a)) (JNum (Z.of_nat idx))) in
  if voice_tagged a then
    let voiceId := or (voice_file_id a) (file_id a) in
    if negb (truthy voiceId) then None
    else Some (ResVoice rid voiceId (or (title a) (JStr "Voice")))
  else if document_tagged a then
    let docId := or (document_file_id a) (file_id a) in
    if negb (truthy docId) then None
    else Some (ResDocument rid docId
                           (or (title a) (JStr "Document"))
                           (or (caption a) JUndefined)
                           (or (description a) JUndefined))
  else if truthy (file_id a) then
    Some (ResCachedAudio rid (file_id a) (or (caption a) JUndefined))
  else if truthy (url a) then
    Some (ResUrlAudio rid (url a)
                      (or (title a) (JStr "Audio"))
                      (or (performer a) JUndefined)
                      (or (caption a) JUndefined))
  else None.

Definition inline_results (audioLibrary : list Entry) (ctx : Ctx)
  : list InlineResult :=
  let q := or (of_option (inlineQuery ctx)) (JStr "") in
  let items := searchAudios audioLibrary q 25 in
  filter_Boolean (map_idx toInlineResult items).

(** [bot.on('inline_query')], lines 68-131. *)
Definition on_inline_query (g : Bindings) (up : Upstream) (ctx : Ctx) : Run :=
  try_catch
    (await up (AnswerInlineQuery (inline_results (audioLibrary g) ctx) 0 true)).

Definition handle (g : Bindings) (up : Upstream) (u : Update) : Run :=
  match u with
  | StartCommand ctx => on_start up ctx
  | IdCommand ctx => on_id_command up ctx
  | InlineQuery ctx => on_inline_query g up ctx
  | ChosenInlineResult _ => done
  end.

Definition main (g : Bindings) (up : Upstream) : Run :=
  if USE_POLLING g then
    await up Launch ;;
    emit (AppListen (PORT g))
  else
    let domain := IndexJs1.domain_of (WEBHOOK_DOMAIN g) in
    let webhookUrl := toString domain ++ WEBHOOK_PATH g in
    emit AppUseJson ;;
    emit (AppUseWebhookCallback (WEBHOOK_PATH g)) ;;
    await up (SetWebhook webhookUrl
                (Some ["inline_query"; "chosen_inline_result"; "message"])) ;;
    emit (AppListen (PORT g)).

Definition program (g : Bindings) (up : Upstream) : Run :=
  catch_exit (main g up).

End Part000.

(* ================================================================== *)
(** ** The running process

    After [load], requests arrive one at a time.  The state the loop
    carries from one request to the next is the module-level bindings. *)

Section Serve.

Variable handle : Bindings -> Upstream -> Update -> Run.
Variable up : Upstream.

Definition serve_one (g : Bindings) (r : Request) : Bindings * list Effect :=
  match r with
  | HealthGet => (g, fst (Shared.health g))
  | Incoming u => (g, fst (handle g up u))
  end.

Fixpoint serve (g : Bindings) (rs : list Request) : Bindings * list Effect :=
  match rs with
  | [] => (g, [])
  | r :: rest =>
      let (g1, es1) := serve_one g r in
      let (g2, es2) := serve g1 rest in
      (g2, (es1 ++ es2)%list)
  end.

End Serve.

(* ================================================================== *)
(** ** Vocabulary of the statements *)

(** The matching test of line 44 once both sides are normalized: the
    lower-cased text [hay a] contains the lower-cased query. *)
Definition matches (hay : Entry -> string) (q : string) (a : Entry) : bool :=
  includes (toLowerCase (hay a)) (toLowerCase q).

(** The same test under the engine's lower-casing. *)
Definition matches_by (lower : string -> string) (hay : Entry -> string)
           (q : string) (a : Entry) : bool :=
  includes (lower (hay a)) (lower q).

(** The text of a string property; empty when the property is absent. *)
Definition text (v : JsValue) : string :=
  match v with
  | JStr s => s
  | _ => ""
  end.

(** The specification's haystack, in its words: the concatenation of
    title and performer. *)
Definition title_plus_performer (a : Entry) : string :=
  text (title a) ++ text (performer a).

(** Title, one space, performer. *)
Definition title_space_performer (a : Entry) : string :=
  text (title a) ++ " " ++ text (performer a).

(** An entry typed as the data model has it, and carrying a title:
    [title] is a string, [performer] is a string or absent. *)
Definition titled (a : Entry) : bool :=
  match title a, performer a with
  | JStr _, (JStr _ | JUndefined) => true
  | _, _ => false
  end.

(** The catalog of the specification's scenario. *)
Definition scenario_catalog : list Entry :=
  [ entry_of [("title", JStr "Song A"); ("performer", JStr "X");
              ("url", JStr "http://a")];
    entry_of [("title", JStr "Song B"); ("file_id", JStr "F1")] ].

(** The four shapes of section 4.2. *)
Inductive Shape : Type :=
| VoiceShape
| DocumentShape
| CachedAudioShape
| UrlAudioShape.

Definition shape_of (r : InlineResult) : Shape :=
  match r with
  | ResVoice _ _ _ => VoiceShape
  | ResDocument _ _ _ _ _ => DocumentShape
  | ResCachedAudio _ _ _ => CachedAudioShape
  | ResUrlAudio _ _ _ _ _ => UrlAudioShape
  end.

(** The resolution order in the words of section 4.2 of the
    specification, written out on the entry's properties. *)
Module Resolution.

(** The entry has the property: it is set and not empty. *)
Definition has (v : JsValue) : bool := truthy v.

(** The entry's [tg_type] is the text [tag]. *)
Definition type_is (a : Entry) (tag : string) : bool :=
  match tg_type a with
  | JStr s => String.eqb s tag
  | _ => false
  end.

(** The entry's [is_voice] is the boolean true. *)
Definition flagged_voice (a : Entry) : bool :=
  match is_voice a with
  | JBool b => b
  | _ => false
  end.

(** "Tagged as voice (by tg_type, is_voice, or presence of
    voice_file_id)". *)
Definition tagged_voice (a : Entry) : bool :=
  type_is a "voice" || flagged_voice a || has (voice_file_id a).

(** "Tagged as document or has document_file_id". *)
Definition tagged_document (a : Entry) : bool :=
  type_is a "document" || has (document_file_id a).

(** "A resolvable voice reference (voice_file_id or fallback file_id)". *)
Definition voice_resolves (a : Entry) : bool :=
  has (voice_file_id a) || has (file_id a).

Definition document_resolves (a : Entry) : bool :=
  has (document_file_id a) || has (file_id a).

Definition voice_rule (a : Entry) : bool :=
  tagged_voice a && voice_resolves a.

Definition document_rule (a : Entry) : bool :=
  tagged_document a && document_resolves a.

Definition cached_audio_rule (a : Entry) : bool := has (file_id a).

Definition url_audio_rule (a : Entry) : bool := has (url a).

(** "Resolution order (first match wins)". *)
Definition first_match (a : Entry) : option Shape :=
  if voice_rule a then Some VoiceShape
  else if document_rule a then Some DocumentShape
  else if cached_audio_rule a then Some CachedAudioShape
  else if url_audio_rule a then Some UrlAudioShape
  else None.

(** The entry carries the tag that decides its shape (voice, or failing
    that document), and the reference of that shape does not resolve. *)
Definition dangling (a : Entry) : bool :=
  if tagged_voice a then negb (voice_resolves a)
  else tagged_document a && negb (document_resolves a).

(** The resolution order as amended: first match wins, and a dangling entry
    is dropped. *)
Definition resolve (a : Entry) : option Shape :=
  if dangling a then None else first_match a.

End Resolution.

(** The result identifier in the specification's words: from [id] if the
    entry has one, otherwise from [file_unique_id] if it has one, otherwise
    from the positional index.  An entry has a property when its value is
    truthy: defined, not null and not empty. *)
Definition identifier (a : Entry) (idx : nat) : string :=
  if truthy (id a) then toString (id a)
  else if truthy (file_unique_id a) then toString (file_unique_id a)
  else toString (JNum (Z.of_nat idx)).

(** The identifier of the first document of src/index.js (line 64): from
    [id] if the entry has one, otherwise from the positional index. *)
Definition identifier_id_or_index (a : Entry) (idx : nat) : string :=
  if truthy (id a) then toString (id a)
  else toString (JNum (Z.of_nat idx)).

(** The update types part_000 asks for (line 162). *)
Definition three_update_types : list string :=
  ["inline_query"; "chosen_inline_result"; "message"].

(** The query an inline-query handler searches with (line 60 / 69 / 209). *)
Definition query_of (ctx : Ctx) : JsValue :=
  or (of_option (inlineQuery ctx)) (JStr "").

(** An entry tagged voice that carries a URL and no voice reference. *)
Definition dangling_voice_entry : Entry :=
  entry_of [("tg_type", JStr "voice"); ("url", JStr "http://x")].

(** The first entry of the scenario catalog. *)
Definition song_a_entry : Entry :=
  entry_of [("title", JStr "Song A"); ("performer", JStr "X");
            ("url", JStr "http://a")].

(** The entry of the voice scenario. *)
Definition voice_scenario_entry : Entry :=
  entry_of [("file_id", JStr "F1"); ("voice_file_id", JStr "V1");
            ("is_voice", JBool true)].

(** A catalog whose two results receive the same identifier. *)
Definition colliding_catalog : list Entry :=
  [ entry_of [("id", JStr "1"); ("url", JStr "http://a")];
    entry_of [("url", JStr "http://b")] ].

Definition ctx_with_query (q : option string) : Ctx :=
  {| chat := None; from := None; startPayload := None; inlineQuery := q |}.

(** An entry with a title and a performer and no media reference. *)
Definition bare_entry : Entry :=
  entry_of [("title", JStr "Song C"); ("performer", JStr "Y")].

(** An entry identified by [file_unique_id] alone. *)
Definition unique_id_entry : Entry :=
  entry_of [("file_unique_id", JStr "U1"); ("url", JStr "http://u")].

(** [process.env] with the listed variables set. *)
Fixpoint env_of (vars : list (string * string)) : Env :=
  fun name =>
    match vars with
    | [] => None
    | (k, v) :: rest => if String.eqb k name then Some v else env_of rest name
    end.

Definition polling_env : Env :=
  env_of [("BOT_TOKEN", "123:abc"); ("USE_POLLING", "true");
          ("WEBHOOK_DOMAIN", "https://bot.example/")].

Definition webhook_env : Env :=
  env_of [("BOT_TOKEN", "123:abc"); ("WEBHOOK_DOMAIN", "https://bot.example/");
          ("WEBHOOK_SECRET", "s3cret"); ("NODE_ENV", "production")].

Definition webhook_bindings : Bindings :=
  {| BOT_TOKEN := JStr "123:abc";
     WEBHOOK_DOMAIN := JStr "https://bot.example/";
     WEBHOOK_SECRET := "s3cret";
     WEBHOOK_PATH := "/telegraf/s3cret";
     PORT := JNum 3000;
     USE_POLLING := false;
     audioLibrary := scenario_catalog |}.

Definition polling_bindings : Bindings :=
  {| BOT_TOKEN := JStr "123:abc";
     WEBHOOK_DOMAIN := JStr "https://bot.example/";
     WEBHOOK_SECRET := "ab12";
     WEBHOOK_PATH := "/telegraf/ab12";
     PORT := JNum 3000;
     USE_POLLING := true;
     audioLibrary := scenario_catalog |}.

Definition all_resolve : Upstream := fun _ => true.

Definition start_ctx (payload : option string) : Ctx :=
  {| chat := Some {| chat_id := 42; chat_type := "private" |};
     from := Some {| user_id := 7; username := Some "starlord" |};
     startPayload := payload;
     inlineQuery := None |}.

(* ================================================================== *)
(** ** src/index.js, second document: the direct-message handler

    Lines 254-309.  [JSON.stringify] and the draw of [crypto.randomUUID]
    are inputs of the handler. *)

Module Ingest.

(** [m.audio]. *)
Record Audio : Type := mkAudio {
  audio_file_unique_id : option string;
  audio_title : option string;
  audio_performer : option string;
  audio_file_id : option string
}.

(** [m.document]. *)
Record Document : Type := mkDocument {
  doc_mime_type : option string;
  doc_file_name : option string;
  doc_file_unique_id : option string;
  doc_file_id : option string
}.

(** [ctx.message]; of [m.voice] only the presence is read. *)
Record Message : Type := mkMessage {
  m_audio : option Audio;
  m_document : option Document;
  m_voice : bool;
  m_caption : option string
}.

(** [s.endsWith(suffix)], the [$] of the two patterns. *)
Fixpoint ends_with (s suffix : string) : bool :=
  String.eqb s suffix
  || match s with
     | EmptyString => false
     | String _ s' => ends_with s' suffix
     end.

Definition audio_extensions : list string :=
  ["mp3"; "m4a"; "ogg"; "flac"; "wav"].

(** [/\.(mp3|m4a|ogg|flac|wav)$/i.test(name)]. *)
Definition has_audio_extension (name : string) : bool :=
  existsb (fun ext => ends_with (toLowerCase name) ("." ++ ext))
          audio_extensions.

Fixpoint no_dot (s : string) : bool :=
  match s with
  | EmptyString => true
  | String c s' => negb (Ascii.eqb c ".") && no_dot s'
  end.

(** [name.replace(/\.[^.]+$/, '')]: the last dot and what follows it are
    removed, when something follows it. *)
Fixpoint strip_extension (name : string) : string :=
  match name with
  | EmptyString => EmptyString
  | String c rest =>
      if Ascii.eqb c "." && negb (String.eqb rest "") && no_dot rest
      then EmptyString
      else String c (strip_extension rest)
  end.

(** The test of line 281 on [m.document]. *)
Definition looks_like_audio (d : Document) : bool :=
  match doc_mime_type d with
  | Some mime => String.prefix "audio/" mime
  | None => false
  end
  || has_audio_extension (or_empty (doc_file_name d)).

(** The entry of lines 261-267. *)
Definition audio_entry (randomUUID : string) (m : Message) (audio : Audio)
  : Entry :=
  {| id := or (of_option (audio_file_unique_id audio)) (JStr randomUUID);
     file_unique_id := JUndefined;
     title := or (of_option (audio_title audio))
                 (or (of_option (m_caption m)) (JStr "Audio"));
     performer := or (of_option (audio_performer audio)) JUndefined;
     caption := or (of_option (m_caption m)) JUndefined;
     description := JUndefined;
     url := JUndefined;
     file_id := of_option (audio_file_id audio);
     voice_file_id := JUndefined;
     document_file_id := JUndefined;
     tg_type := JUndefined;
     is_voice := JUndefined |}.

(** The entry of lines 283-289. *)
Definition document_entry (randomUUID : string) (m : Message) (d : Document)
  : Entry :=
  let baseTitle :=
    strip_extension (toString (or (of_option (doc_file_name d)) (JStr "Audio"))) in
  {| id := or (of_option (doc_file_unique_id d)) (JStr randomUUID);
     file_unique_id := JUndefined;
     title := JStr baseTitle;
     performer := JUndefined;
     caption := or (of_option (m_caption m)) JUndefined;
     description := JUndefined;
     url := JUndefined;
     file_id := of_option (doc_file_id d);
     voice_file_id := JUndefined;
     document_file_id := JUndefined;
     tg_type := JUndefined;
     is_voice := JUndefined |}.

Definition found_audio : string :=
  "Нашёл аудио. Добавьте в data/audios.json и задеплойте:".

Definition took_file : string :=
  "Принял файл как аудио. Добавьте в data/audios.json и задеплойте:".

Definition is_voice_note : string :=
  "Это голосовое. Пожалуйста, отправьте аудио как «Музыка» или файл (mp3/m4a/ogg).".

Section Handler.

(** [entry => JSON.stringify(entry, null, 2)]. *)
Variable JSON_stringify : Entry -> string.

(** [bot.on('message')]. *)
Definition on_message (up : Upstream) (randomUUID : string) (ctx : Ctx)
           (m : Message) : Run :=
  if negb match chat ctx with
          | Some c => String.eqb (chat_type c) "private"
          | None => false
          end
  then done
  else
    match m_audio m with
    | Some audio =>
        let entry := audio_entry randomUUID m audio in
        try_catch
          (await up (Reply (join nl [found_audio; JSON_stringify entry])))
    | None =>
        match m_document m with
        | Some d =>
            if looks_like_audio d then
              let entry := document_entry randomUUID m d in
              try_catch
                (await up (Reply (join nl [took_file; JSON_stringify entry])))
            else if m_voice m then
              try_catch (await up (Reply is_voice_note))
            else done
        | None =>
            if m_voice m then
              try_catch (await up (Reply is_voice_note))
            else done
        end
    end.

End Handler.

End Ingest.

(* ================================================================== *)
(** ** Further vocabulary *)

(** [l1] is [l2] with some elements left out, the order kept. *)
Inductive Subseq {A : Type} : list A -> list A -> Prop :=
| Subseq_nil : Subseq [] []
| Subseq_skip (x : A) (l1 l2 : list A) : Subseq l1 l2 -> Subseq l1 (x :: l2)
| Subseq_take (x : A) (l1 l2 : list A) : Subseq l1 l2 -> Subseq (x :: l1) (x :: l2).

(** Everything the search finds: the search with the catalog size for its
    limit. *)
Definition found (search : list Entry -> JsValue -> Z -> list Entry)
           (lib : list Entry) (q : JsValue) : list Entry :=
  search lib q (Z.of_nat (List.length lib)).

(** The entry carries neither an [id] nor a [file_unique_id]. *)
Definition anonymous (a : Entry) : bool :=
  negb (truthy (id a)) && negb (truthy (file_unique_id a)).


(** A production deployment without a webhook domain. *)
Definition production_env : Env :=
  env_of [("BOT_TOKEN", "123:abc"); ("NODE_ENV", "production")].

Definition production_bindings : Bindings :=
  {| BOT_TOKEN := JStr "123:abc";
     WEBHOOK_DOMAIN := JUndefined;
     WEBHOOK_SECRET := "ab12";
     WEBHOOK_PATH := "/telegraf/ab12";
     PORT := JNum 3000;
     USE_POLLING := false;
     audioLibrary := scenario_catalog |}.

(** The update comes from a private chat (line 255). *)
Definition private_chat (ctx : Ctx) : Prop :=
  exists c, chat ctx = Some c /\ chat_type c = "private".

(** A stand-in for [JSON.stringify] in concrete runs. *)
Definition title_only (e : Entry) : string := text (title e).

Definition private_ctx : Ctx :=
  {| chat := Some {| chat_id := 42; chat_type := "private" |};
     from := Some {| user_id := 7; username := Some "starlord" |};
     startPayload := None;
     inlineQuery := None |}.

Definition sample_audio : Ingest.Audio :=
  {| Ingest.audio_file_unique_id := Some "AgADuniq";
     Ingest.audio_title := Some "Song D";
     Ingest.audio_performer := None;
     Ingest.audio_file_id := Some "CQACfile" |}.

Definition sample_document : Ingest.Document :=
  {| Ingest.doc_mime_type := None;
     Ingest.doc_file_name := Some "My.Track.MP3";
     Ingest.doc_file_unique_id := None;
     Ingest.doc_file_id := Some "BQACfile" |}.

Definition audio_message : Ingest.Message :=
  {| Ingest.m_audio := Some sample_audio;
     Ingest.m_document := None;
     Ingest.m_voice := false;
     Ingest.m_caption := None |}.

Definition document_message : Ingest.Message :=
  {| Ingest.m_audio := None;
     Ingest.m_document := Some sample_document;
     Ingest.m_voice := false;
     Ingest.m_caption := Some "demo" |}.

(* ================================================================== *)
(** * Properties *)

(** ** Strings *)

Section StringFacts.

Lemma lower_char_idem (c : ascii) : lower_char (lower_char c) = lower_char c.
Proof.
  destruct c as [[] [] [] [] [] [] [] []]; vm_compute; reflexivity.
Qed.

Lemma toLowerCase_idem (s : string) :
  toLowerCase (toLowerCase s) = toLowerCase s.
Proof.
  induction s as [|c s IH]; simpl; [reflexivity|].
  now rewrite lower_char_idem, IH.
Qed.

Lemma toLowerCase_app (s t : string) :
  toLowerCase (s ++ t) = toLowerCase s ++ toLowerCase t.
Proof.
  induction s as [|c s IH]; simpl; [reflexivity|]. now rewrite IH.
Qed.

Lemma append_assoc (s t u : string) : (s ++ t) ++ u = s ++ (t ++ u).
Proof.
  induction s as [|c s IH]; simpl; [reflexivity|]. now rewrite IH.
Qed.

Lemma toLowerCase_empty (s : string) : toLowerCase s = "" <-> s = "".
Proof.
  destruct s; simpl; split; intro H; try reflexivity; discriminate H.
Qed.

Lemma prefix_iff (sub s : string) :
  String.prefix sub s = true <-> exists post, s = sub ++ post.
Proof.
  revert s. induction sub as [|a sub IH]; intros s; simpl.
  - destruct s; split; eauto.
  - destruct s as [|b s]; simpl.
    + split; [discriminate|]. intros [post H]. discriminate H.
    + destruct (ascii_dec a b) as [->|Hne].
      * rewrite IH. split; intros [post H]; exists post.
        -- now rewrite H.
        -- now injection H.
      * split; [discriminate|]. intros [post H].
        injection H as Hab _. congruence.
Qed.

(** [includes] decides the substring relation. *)
Lemma includes_iff (s sub : string) :
  includes s sub = true <-> exists pre post, s = pre ++ sub ++ post.
Proof.
  induction s as [|c s IH].
  - cbn [includes]. rewrite orb_false_r, prefix_iff. split.
    + intros [post H]. exists "", post. exact H.
    + intros [pre [post H]]. destruct pre; simpl in H.
      * now exists post.
      * discriminate H.
  - cbn [includes]. rewrite orb_true_iff, IH, prefix_iff. split.
    + intros [[post H]|[pre [post H]]].
      * exists "", post. exact H.
      * exists (String c pre), post. simpl. now rewrite H.
    + intros [pre [post H]]. destruct pre as [|d pre]; simpl in H.
      * left. now exists post.
      * right. injection H as _ H. now exists pre, post.
Qed.

End StringFacts.

(** ** Arrays *)

Section ArrayFacts.

Context {A B : Type}.

(** [arr.slice(0, n)] for a count [n] is the first [n] elements. *)
Lemma slice_first (arr : list A) (n : nat) :
  slice arr 0 (Z.of_nat n) = firstn n arr.
Proof.
  unfold slice, clamp_index. cbv zeta.
  replace (0 <? 0) with false by reflexivity.
  rewrite (Z.min_l 0) by lia.
  destruct (Z.of_nat n <? 0) eqn:Hn; [apply Z.ltb_lt in Hn; lia|].
  rewrite Z.sub_0_r. cbn [Z.to_nat skipn].
  destruct (Z.min_spec (Z.of_nat n) (Z.of_nat (List.length arr)))
    as [[Hlt ->]|[Hge ->]].
  - now rewrite Nat2Z.id.
  - rewrite Nat2Z.id, firstn_all. symmetry. apply firstn_all2. lia.
Qed.

Lemma In_firstn (n : nat) (arr : list A) (a : A) :
  In a (firstn n arr) -> In a arr.
Proof.
  revert arr. induction n as [|n IH]; intros [|b arr]; simpl; try tauto.
  intros [->|H]; [now left|right; now apply IH].
Qed.

Lemma In_skipn (n : nat) (arr : list A) (a : A) :
  In a (skipn n arr) -> In a arr.
Proof.
  revert arr. induction n as [|n IH]; intros [|b arr]; simpl; auto.
Qed.

Lemma In_slice (arr : list A) (s e : Z) (a : A) :
  In a (slice arr s e) -> In a arr.
Proof.
  unfold slice. intros H. apply In_firstn in H. now apply In_skipn in H.
Qed.

Lemma filter_all (f : A -> bool) (arr : list A) :
  (forall a, f a = true) -> filter f arr = arr.
Proof.
  intros Hf. induction arr as [|a arr IH]; simpl; [reflexivity|].
  now rewrite Hf, IH.
Qed.

Lemma filter_ext_forallb (f g p : A -> bool) (arr : list A) :
  forallb p arr = true ->
  (forall a, p a = true -> f a = g a) ->
  filter f arr = filter g arr.
Proof.
  intros Hp Hfg. induction arr as [|a arr IH]; simpl in *; [reflexivity|].
  apply andb_prop in Hp as [Ha Hl]. now rewrite (Hfg a Ha), (IH Hl).
Qed.

Lemma In_filter_Boolean (arr : list (option A)) (x : A) :
  In x (filter_Boolean arr) <-> In (Some x) arr.
Proof.
  induction arr as [|[y|] arr IH]; simpl; [tauto| |].
  - rewrite IH. split; intros [H|H]; auto; left; congruence.
  - rewrite IH. split; [auto|]. intros [H|H]; [discriminate|exact H].
Qed.

Lemma In_map_idx_from (f : A -> nat -> B) (from : nat) (arr : list A) (y : B) :
  In y (map_idx_from f from arr) ->
  exists a idx, In a arr /\ y = f a idx.
Proof.
  revert from. induction arr as [|a arr IH]; intros from; simpl; [tauto|].
  intros [H|H].
  - exists a, from. auto.
  - destruct (IH _ H) as [a' [idx [Ha' Hy]]]. exists a', idx. auto.
Qed.

Lemma nth_map_idx_from (f : A -> nat -> B) (from : nat) (arr : list A)
      (idx : nat) (a : A) :
  nth_error arr idx = Some a ->
  nth_error (map_idx_from f from arr) idx = Some (f a (from + idx)%nat).
Proof.
  revert from idx. induction arr as [|b arr IH]; intros from [|idx]; simpl;
    try discriminate.
  - intros [= ->]. now rewrite Nat.add_0_r.
  - intros H. rewrite (IH (S from) idx H). f_equal. f_equal. lia.
Qed.

Lemma length_map_idx_from (f : A -> nat -> B) (from : nat) (arr : list A) :
  List.length (map_idx_from f from arr) = List.length arr.
Proof.
  revert from. induction arr as [|a arr IH]; intros from; simpl; auto.
Qed.

End ArrayFacts.

(** ** The query matcher *)

Section Matcher.

Lemma normalize_str (s : string) : Shared.normalize (JStr s) = toLowerCase s.
Proof.
  unfold Shared.normalize, or. simpl.
  destruct (String.eqb_spec s ""); simpl; [now subst|reflexivity].
Qed.

(** The text the code matches against always holds a space. *)
Lemma hay_has_space (t p : string) :
  includes (toLowerCase (t ++ " " ++ p)) " " = true.
Proof.
  apply includes_iff. exists (toLowerCase t), (toLowerCase p).
  now rewrite !toLowerCase_app.
Qed.

Lemma Shared_searchAudios_str (lib : list Entry) (q : string) (n : Z) :
  Shared.searchAudios lib (JStr q) n =
  if String.eqb q "" then slice lib 0 n
  else slice (filter (matches Shared.hay q) lib) 0 n.
Proof.
  unfold Shared.searchAudios. rewrite normalize_str.
  cbn [truthy]. rewrite negb_involutive.
  destruct (String.eqb_spec q "") as [->|Hq]; [reflexivity|].
  destruct (String.eqb_spec (toLowerCase q) "") as [Hl|_].
  - exfalso. apply Hq. now apply toLowerCase_empty.
  - f_equal. apply filter_ext. intros a. now rewrite normalize_str.
Qed.

Lemma IndexJs2_searchAudios_str (lib : list Entry) (q : string) (n : Z) :
  IndexJs2.searchAudios lib (JStr q) n =
  if String.eqb q "" then slice lib 0 n
  else slice (filter (matches IndexJs2.hay q) lib) 0 n.
Proof.
  unfold IndexJs2.searchAudios, IndexJs2.normalize. rewrite normalize_str.
  cbn [truthy]. rewrite negb_involutive.
  destruct (String.eqb_spec q "") as [->|Hq]; [reflexivity|].
  destruct (String.eqb_spec (toLowerCase q) "") as [Hl|_].
  - exfalso. apply Hq. now apply toLowerCase_empty.
  - f_equal. apply filter_ext. intros a. now rewrite normalize_str.
Qed.

Lemma matches_space_Shared (a : Entry) : matches Shared.hay " " a = true.
Proof. apply hay_has_space. Qed.

Lemma matches_space_IndexJs2 (a : Entry) : matches IndexJs2.hay " " a = true.
Proof. apply hay_has_space. Qed.

(** For an entry with a title, both haystacks are title, space, performer. *)
Lemma titled_hay (a : Entry) :
  titled a = true ->
  Shared.hay a = title_space_performer a
  /\ IndexJs2.hay a = title_space_performer a.
Proof.
  unfold titled, Shared.hay, IndexJs2.hay, title_space_performer, or.
  destruct (title a) as [| | | |t]; try discriminate.
  destruct (performer a) as [| | | |p]; try discriminate; intros _; cbn.
  - destruct (String.eqb_spec t ""); subst; split; reflexivity.
  - destruct (String.eqb_spec t ""), (String.eqb_spec p "");
      subst; split; reflexivity.
Qed.

(** The search returns catalog entries only. *)
Lemma Shared_searchAudios_In (lib : list Entry) (q : JsValue) (n : Z)
      (a : Entry) :
  In a (Shared.searchAudios lib q n) -> In a lib.
Proof.
  unfold Shared.searchAudios.
  destruct (negb _); intros H; apply In_slice in H; [exact H|].
  now apply filter_In in H.
Qed.

(** The result count never exceeds the requested count. *)
Lemma searchAudios_length (lib : list Entry) (q : JsValue) (n : nat) :
  (List.length (Shared.searchAudios lib q (Z.of_nat n)) <= n)%nat.
Proof.
  unfold Shared.searchAudios.
  destruct (negb _); rewrite slice_first; apply firstn_le_length.
Qed.

End Matcher.

(** ** The query matcher under the engine's lower-casing *)

Section CasedFacts.

Variable lower : string -> string.

Lemma Cased_normalize_str (s : string) :
  Cased.normalize lower (JStr s) = lower s.
Proof.
  unfold Cased.normalize, or. simpl.
  destruct (String.eqb_spec s ""); simpl; [now subst|reflexivity].
Qed.

Lemma Cased_searchAudios_str (lib : list Entry) (q : string) (n : Z) :
  Cased.searchAudios lower lib (JStr q) n =
  if String.eqb (lower q) "" then slice lib 0 n
  else slice (filter (matches_by lower Shared.hay q) lib) 0 n.
Proof.
  unfold Cased.searchAudios. rewrite Cased_normalize_str.
  cbn [truthy]. rewrite negb_involutive.
  destruct (String.eqb (lower q) ""); [reflexivity|].
  f_equal. apply filter_ext. intros a. now rewrite Cased_normalize_str.
Qed.

Lemma Cased_searchAudios_ingest_str (lib : list Entry) (q : string) (n : Z) :
  Cased.searchAudios_ingest lower lib (JStr q) n =
  if String.eqb (lower q) "" then slice lib 0 n
  else slice (filter (matches_by lower IndexJs2.hay q) lib) 0 n.
Proof.
  unfold Cased.searchAudios_ingest. rewrite Cased_normalize_str.
  cbn [truthy]. rewrite negb_involutive.
  destruct (String.eqb (lower q) ""); [reflexivity|].
  f_equal. apply filter_ext. intros a. now rewrite Cased_normalize_str.
Qed.

End CasedFacts.

(** With the letters A-Z for lower-casing, these are the definitions of
    [Shared] and [IndexJs2]. *)
Lemma Cased_at_ascii (lib : list Entry) (q : JsValue) (n : Z) :
  Cased.searchAudios toLowerCase lib q n = Shared.searchAudios lib q n
  /\ Cased.searchAudios_ingest toLowerCase lib q n
     = IndexJs2.searchAudios lib q n.
Proof. split; reflexivity. Qed.

(** C1, as stated, fails: with title "Song A" and performer "X" the query
    "a x" is found by the code, which matches against "song a x", while the
    concatenation of title and performer, "song ax", does not contain it. *)
Lemma searchAudios_concatenation_counterexample :
  ~ (forall (lib : list Entry) (q : string) (n : nat),
        q <> "" ->
        Shared.searchAudios lib (JStr q) (Z.of_nat n)
        = firstn n (filter (matches title_plus_performer q) lib)
        /\ forall a, In a (Shared.searchAudios lib (JStr q) (Z.of_nat n)) ->
                     matches title_plus_performer q a = true).
Proof.
  intros H.
  destruct (H scenario_catalog "a x" 25%nat) as [Heq _]; [discriminate|].
  vm_compute in Heq. discriminate Heq.
Qed.

(** C1, amended.  For every non-empty query string [q] and every count [n],
    over a catalog whose entries carry a title, the search returns exactly
    the entries for which the lower-cased text "title, one space,
    performer" (the performer empty when absent) contains the lower-cased
    [q], in catalog order, cut to the first [n]; every returned entry is a
    catalog entry that satisfies this condition.  The lower-casing is the
    engine's, of which only this is used: it gives the empty string for the
    empty string alone. *)
Theorem searchAudios_nonempty_query
        (lower : string -> string) (lib : list Entry) (q : string) (n : nat) :
  (forall s, lower s = "" -> s = "") ->
  q <> "" ->
  forallb titled lib = true ->
  Cased.searchAudios lower lib (JStr q) (Z.of_nat n)
  = firstn n (filter (matches_by lower title_space_performer q) lib)
  /\ Cased.searchAudios_ingest lower lib (JStr q) (Z.of_nat n)
     = firstn n (filter (matches_by lower title_space_performer q) lib)
  /\ (forall a, In a (Cased.searchAudios lower lib (JStr q) (Z.of_nat n)) ->
                In a lib /\ matches_by lower title_space_performer q a = true).
Proof.
  intros Hlow Hq Hlib.
  assert (Hlq : String.eqb (lower q) "" = false).
  { destruct (String.eqb_spec (lower q) "") as [E|_]; [|reflexivity].
    apply Hlow in E. contradiction. }
  assert (HS : Cased.searchAudios lower lib (JStr q) (Z.of_nat n)
               = firstn n (filter (matches_by lower title_space_performer q) lib)).
  { rewrite Cased_searchAudios_str, Hlq, slice_first. f_equal.
    apply (filter_ext_forallb _ _ titled); [exact Hlib|].
    intros a Ha. unfold matches_by. now rewrite (proj1 (titled_hay a Ha)). }
  split; [exact HS|]. split.
  - rewrite Cased_searchAudios_ingest_str, Hlq, slice_first. f_equal.
    apply (filter_ext_forallb _ _ titled); [exact Hlib|].
    intros a Ha. unfold matches_by. now rewrite (proj2 (titled_hay a Ha)).
  - intros a Ha. rewrite HS in Ha. apply In_firstn in Ha.
    apply filter_In in Ha. exact Ha.
Qed.

Lemma searchAudios_nonempty_query_witness :
  (forall s, toLowerCase s = "" -> s = "")
  /\ "a" <> ""
  /\ forallb titled scenario_catalog = true
  /\ Cased.searchAudios toLowerCase scenario_catalog (JStr "a") (Z.of_nat 25)
     = firstn 25 (filter (matches_by toLowerCase title_space_performer "a")
                         scenario_catalog).
Proof.
  assert (Hlow : forall s, toLowerCase s = "" -> s = "")
    by (intros s; apply toLowerCase_empty).
  split; [exact Hlow|]. split; [discriminate|]. split; [reflexivity|].
  apply (searchAudios_nonempty_query toLowerCase scenario_catalog "a" 25 Hlow);
    [discriminate|reflexivity].
Defined.

(** C4.  With the empty query, and with an absent one, the search returns
    the first [n] catalog entries in catalog order, unfiltered, for every
    limit [n], a count; with [n = 1] that is the first catalog entry alone.
    This holds for the [searchAudios] of every revision. *)
Theorem searchAudios_empty_query (lib : list Entry) (n : nat) :
  Shared.searchAudios lib (JStr "") (Z.of_nat n) = firstn n lib
  /\ Shared.searchAudios lib JUndefined (Z.of_nat n) = firstn n lib
  /\ IndexJs2.searchAudios lib (JStr "") (Z.of_nat n) = firstn n lib
  /\ IndexJs2.searchAudios lib JUndefined (Z.of_nat n) = firstn n lib
  /\ Shared.searchAudios lib (JStr "") 1 = match lib with [] => [] | a :: _ => [a] end
  /\ IndexJs2.searchAudios lib (JStr "") 1 = match lib with [] => [] | a :: _ => [a] end.
Proof.
  repeat split; try apply slice_first.
  - change 1 with (Z.of_nat 1).
    transitivity (firstn 1 lib); [apply slice_first|now destruct lib].
  - change 1 with (Z.of_nat 1).
    transitivity (firstn 1 lib); [apply slice_first|now destruct lib].
Qed.

(** C9.  The search is case-invariant in its query: a query string and its
    lower-cased form give the same result sequence, for every limit.  The
    lower-casing is the engine's, of which only this is used: lower-casing
    a lower-cased string changes nothing. *)
Theorem searchAudios_case_invariant
        (lower : string -> string) (lib : list Entry) (q : string) (n : Z) :
  (forall s, lower (lower s) = lower s) ->
  Cased.searchAudios lower lib (JStr q) n
  = Cased.searchAudios lower lib (JStr (lower q)) n
  /\ Cased.searchAudios_ingest lower lib (JStr q) n
     = Cased.searchAudios_ingest lower lib (JStr (lower q)) n.
Proof.
  intros Hidem.
  rewrite !Cased_searchAudios_str, !Cased_searchAudios_ingest_str, Hidem.
  unfold matches_by. split; destruct (String.eqb (lower q) ""); try reflexivity;
    f_equal; apply filter_ext; intros a; now rewrite Hidem.
Qed.

Lemma searchAudios_case_invariant_witness :
  (forall s, toLowerCase (toLowerCase s) = toLowerCase s)
  /\ Cased.searchAudios toLowerCase scenario_catalog (JStr "SONG b") 25
     = Cased.searchAudios toLowerCase scenario_catalog
                          (JStr (toLowerCase "SONG b")) 25.
Proof.
  split; [exact toLowerCase_idem|].
  apply (proj1 (searchAudios_case_invariant toLowerCase scenario_catalog
                  "SONG b" 25 toLowerCase_idem)).
Defined.

(** C10.  The text matched against joins title and performer with one
    space, so the one-space query matches every entry, and searching with
    it returns what the empty query returns: the first [n] catalog
    entries. *)
Theorem searchAudios_space_query (lib : list Entry) :
  (forall a, matches Shared.hay " " a = true)
  /\ (forall a, matches IndexJs2.hay " " a = true)
  /\ (forall n : Z,
        Shared.searchAudios lib (JStr " ") n
        = Shared.searchAudios lib (JStr "") n)
  /\ (forall n : Z,
        IndexJs2.searchAudios lib (JStr " ") n
        = IndexJs2.searchAudios lib (JStr "") n)
  /\ (forall n : nat,
        Shared.searchAudios lib (JStr " ") (Z.of_nat n) = firstn n lib
        /\ IndexJs2.searchAudios lib (JStr " ") (Z.of_nat n) = firstn n lib).
Proof.
  split; [exact matches_space_Shared|].
  split; [exact matches_space_IndexJs2|].
  assert (HS : forall n, Shared.searchAudios lib (JStr " ") n = slice lib 0 n).
  { intros n. rewrite Shared_searchAudios_str.
    simpl. now rewrite (filter_all _ _ matches_space_Shared). }
  assert (HI : forall n, IndexJs2.searchAudios lib (JStr " ") n = slice lib 0 n).
  { intros n. rewrite IndexJs2_searchAudios_str.
    simpl. now rewrite (filter_all _ _ matches_space_IndexJs2). }
  assert (HE : forall n, Shared.searchAudios lib (JStr "") n = slice lib 0 n)
    by reflexivity.
  assert (HE2 : forall n, IndexJs2.searchAudios lib (JStr "") n = slice lib 0 n)
    by reflexivity.
  split; [intros n; now rewrite HS, HE|].
  split; [intros n; now rewrite HI, HE2|].
  intros n. rewrite HS, HI. split; apply slice_first.
Qed.

(** ** The result formatter *)

Section Formatter.

Lemma or_falsy (x y : JsValue) :
  truthy x = false -> truthy y = false -> truthy (or x y) = false.
Proof. unfold or. intros Hx Hy. now rewrite Hx. Qed.

(** part_000 drops an entry none of whose four references is set. *)
Lemma toInlineResult_none (a : Entry) (idx : nat) :
  truthy (voice_file_id a) = false ->
  truthy (document_file_id a) = false ->
  truthy (file_id a) = false ->
  truthy (url a) = false ->
  Part000.toInlineResult a idx = None.
Proof.
  intros Hv Hd Hf Hu. unfold Part000.toInlineResult.
  rewrite (or_falsy _ _ Hv Hf), (or_falsy _ _ Hd Hf), Hf, Hu. simpl.
  destruct (Part000.voice_tagged a); [reflexivity|].
  destruct (Part000.document_tagged a); reflexivity.
Qed.

Lemma rid_identifier (a : Entry) (idx : nat) :
  toString (or (or (id a) (file_unique_id a)) (JNum (Z.of_nat idx)))
  = identifier a idx.
Proof.
  unfold identifier, or. destruct (truthy (id a)) eqn:Hi.
  - now rewrite Hi.
  - destruct (truthy (file_unique_id a)); reflexivity.
Qed.

Lemma Part000_result_id (a : Entry) (idx : nat) (r : InlineResult) :
  Part000.toInlineResult a idx = Some r -> result_id r = identifier a idx.
Proof.
  unfold Part000.toInlineResult. rewrite rid_identifier.
  repeat match goal with
         | |- context [if ?c then _ else _] => destruct c
         end; intros [= <-]; reflexivity.
Qed.

Lemma IndexJs2_result_id (a : Entry) (idx : nat) :
  result_id (IndexJs2.toInlineResult a idx) = identifier a idx.
Proof.
  unfold IndexJs2.toInlineResult. rewrite rid_identifier.
  now destruct (truthy (file_id a)).
Qed.

Lemma IndexJs1_result_id (a : Entry) (idx : nat) :
  result_id (IndexJs1.toInlineResult a idx) = identifier_id_or_index a idx.
Proof.
  unfold IndexJs1.toInlineResult, identifier_id_or_index, or. simpl.
  now destruct (truthy (id a)).
Qed.

End Formatter.

(** C2, as stated, fails on src/index.js: its first handler formats every
    item, so the entry without any media reference is answered, as URL
    audio with an undefined URL. *)
Lemma entry_without_media_counterexample :
  ~ (forall (a : Entry) (lib : list Entry) (ctx : Ctx),
        truthy (voice_file_id a) = false ->
        truthy (document_file_id a) = false ->
        truthy (file_id a) = false ->
        truthy (url a) = false ->
        forall r idx,
          In r (IndexJs1.inline_results lib ctx) ->
          r <> IndexJs1.toInlineResult a idx).
Proof.
  intros H.
  apply (H bare_entry [bare_entry] (ctx_with_query None)
           eq_refl eq_refl eq_refl eq_refl
           (IndexJs1.toInlineResult bare_entry 0) 0%nat).
  - left. reflexivity.
  - reflexivity.
Qed.

(** C2, amended.  In part_000, an entry that has none of a voice reference,
    a document reference, a [file_id] and a [url] (each absent, null or
    empty) is formatted to nothing at every position; every descriptor the
    inline-query handler answers with comes from a catalog entry other than
    it; and the handler itself never fails.  The handlers of src/index.js
    exclude nothing: they answer one descriptor per item found. *)
Theorem entry_without_media_excluded (a : Entry) :
  truthy (voice_file_id a) = false ->
  truthy (document_file_id a) = false ->
  truthy (file_id a) = false ->
  truthy (url a) = false ->
  (forall idx, Part000.toInlineResult a idx = None)
  /\ (forall lib ctx r,
        In r (Part000.inline_results lib ctx) ->
        exists a' idx,
          In a' lib /\ a' <> a /\ Part000.toInlineResult a' idx = Some r)
  /\ (forall g up ctx, snd (Part000.on_inline_query g up ctx) = Resolved)
  /\ (forall lib ctx,
        List.length (IndexJs1.inline_results lib ctx)
        = List.length (IndexJs1.searchAudios lib (query_of ctx) 25)
        /\ List.length (IndexJs2.inline_results lib ctx)
           = List.length (IndexJs2.searchAudios lib (query_of ctx) 25)).
Proof.
  intros Hv Hd Hf Hu.
  assert (Hnone : forall idx, Part000.toInlineResult a idx = None)
    by (intros idx; now apply toInlineResult_none).
  split; [exact Hnone|]. split; [|split; [reflexivity|]].
  - intros lib ctx r Hr. unfold Part000.inline_results in Hr.
    apply In_filter_Boolean in Hr.
    apply In_map_idx_from in Hr as [a' [idx [Ha' Hfmt]]].
    apply Shared_searchAudios_In in Ha'.
    exists a', idx. repeat split; auto.
    intros ->. rewrite Hnone in Hfmt. discriminate Hfmt.
  - intros lib ctx. split; apply length_map_idx_from.
Qed.

Lemma entry_without_media_excluded_witness :
  truthy (voice_file_id bare_entry) = false
  /\ truthy (document_file_id bare_entry) = false
  /\ truthy (file_id bare_entry) = false
  /\ truthy (url bare_entry) = false
  /\ Part000.toInlineResult bare_entry 0 = None.
Proof.
  do 4 (split; [reflexivity|]).
  apply (entry_without_media_excluded bare_entry); reflexivity.
Defined.

Section ResolutionFacts.

Lemma tagged_voice_code (a : Entry) :
  Part000.voice_tagged a = Resolution.tagged_voice a.
Proof.
  unfold Part000.voice_tagged, Resolution.tagged_voice, Resolution.type_is,
    Resolution.flagged_voice, Resolution.has.
  destruct (tg_type a), (is_voice a) as [| |[]| |]; reflexivity.
Qed.

Lemma tagged_document_code (a : Entry) :
  Part000.document_tagged a = Resolution.tagged_document a.
Proof.
  unfold Part000.document_tagged, Resolution.tagged_document,
    Resolution.type_is, Resolution.has.
  destruct (tg_type a); reflexivity.
Qed.

Lemma resolves_code (x y : JsValue) :
  truthy (or x y) = Resolution.has x || Resolution.has y.
Proof.
  unfold or, Resolution.has. destruct (truthy x) eqn:E; [exact E|reflexivity].
Qed.

(** The shape part_000 gives an entry, in terms of the rules. *)
Lemma toInlineResult_shape (a : Entry) (idx : nat) :
  option_map shape_of (Part000.toInlineResult a idx)
  = if Resolution.tagged_voice a
    then (if Resolution.voice_resolves a then Some VoiceShape else None)
    else if Resolution.tagged_document a
    then (if Resolution.document_resolves a then Some DocumentShape else None)
    else if Resolution.has (file_id a) then Some CachedAudioShape
    else if Resolution.has (url a) then Some UrlAudioShape
    else None.
Proof.
  unfold Part000.toInlineResult.
  rewrite tagged_voice_code, tagged_document_code, !resolves_code.
  unfold Resolution.voice_resolves, Resolution.document_resolves,
    Resolution.has.
  destruct (Resolution.tagged_voice a).
  - now destruct (truthy (voice_file_id a) || truthy (file_id a)).
  - destruct (Resolution.tagged_document a).
    + now destruct (truthy (document_file_id a) || truthy (file_id a)).
    + destruct (truthy (file_id a)); [reflexivity|].
      now destruct (truthy (url a)).
Qed.

End ResolutionFacts.

(** C3, as stated, fails: an entry tagged voice that has a URL and no voice
    reference matches, in the order of section 4.2, the URL-audio rule;
    part_000 returns null for it at line 78. *)
Lemma format_priority_counterexample :
  ~ (forall a idx,
        option_map shape_of (Part000.toInlineResult a idx)
        = Resolution.first_match a).
Proof.
  intros H. specialize (H dangling_voice_entry 0%nat). discriminate H.
Qed.

(** C3, amended.  In part_000 the descriptor of an item is a function of
    the entry and its position alone.  Its shape follows the order voice,
    document, cached audio, URL audio, first match wins, except that an
    entry whose deciding tag (voice, or failing that document) has no
    reference that resolves is dropped instead of being tried against the
    later rules.  A voice result carries [voice_file_id], or [file_id] in
    its place; and the entry with file_id "F1", voice_file_id "V1" and
    is_voice true is formatted, at every position, as a voice result
    carrying "V1". *)
Theorem format_follows_priority :
  (forall items idx a,
      nth_error items idx = Some a ->
      nth_error (map_idx Part000.toInlineResult items) idx
      = Some (Part000.toInlineResult a idx))
  /\ (forall a idx,
        option_map shape_of (Part000.toInlineResult a idx)
        = Resolution.resolve a)
  /\ (forall a,
        Resolution.dangling a = false ->
        Resolution.resolve a = Resolution.first_match a)
  /\ (forall a idx,
        Resolution.dangling a = true ->
        Part000.toInlineResult a idx = None)
  /\ (forall a idx,
        Resolution.voice_rule a = true ->
        Part000.toInlineResult a idx
        = Some (ResVoice (identifier a idx)
                         (or (voice_file_id a) (file_id a))
                         (or (title a) (JStr "Voice"))))
  /\ (forall idx,
        Part000.toInlineResult voice_scenario_entry idx
        = Some (ResVoice (toString (JNum (Z.of_nat idx))) (JStr "V1")
                         (JStr "Voice"))).
Proof.
  assert (Hshape : forall a idx,
             option_map shape_of (Part000.toInlineResult a idx)
             = Resolution.resolve a).
  { intros a idx. rewrite toInlineResult_shape.
    unfold Resolution.resolve, Resolution.dangling, Resolution.first_match,
      Resolution.voice_rule, Resolution.document_rule,
      Resolution.cached_audio_rule, Resolution.url_audio_rule.
    destruct (Resolution.tagged_voice a), (Resolution.tagged_document a),
      (Resolution.voice_resolves a), (Resolution.document_resolves a),
      (Resolution.has (file_id a)), (Resolution.has (url a)); reflexivity. }
  split; [|split; [exact Hshape|split; [|split; [|split]]]].
  - intros items idx a H. unfold map_idx.
    now rewrite (nth_map_idx_from _ 0%nat items idx a H).
  - intros a Hd. unfold Resolution.resolve. now rewrite Hd.
  - intros a idx Hd. specialize (Hshape a idx).
    unfold Resolution.resolve in Hshape. rewrite Hd in Hshape.
    now destruct (Part000.toInlineResult a idx).
  - intros a idx H. apply andb_prop in H as [Ht Hr].
    unfold Part000.toInlineResult.
    rewrite rid_identifier, tagged_voice_code, Ht, resolves_code.
    unfold Resolution.voice_resolves in Hr. now rewrite Hr.
  - intros idx. reflexivity.
Qed.

Lemma format_follows_priority_witness :
  Resolution.dangling dangling_voice_entry = true
  /\ Part000.toInlineResult dangling_voice_entry 0 = None
  /\ Resolution.voice_rule voice_scenario_entry = true
  /\ Part000.toInlineResult voice_scenario_entry 3
     = Some (ResVoice (identifier voice_scenario_entry 3)
                      (or (voice_file_id voice_scenario_entry)
                          (file_id voice_scenario_entry))
                      (or (title voice_scenario_entry) (JStr "Voice"))).
Proof.
  split; [reflexivity|]. split.
  - apply (proj1 (proj2 (proj2 (proj2 format_follows_priority)))
                 dangling_voice_entry 0%nat).
    reflexivity.
  - split; [reflexivity|].
    apply (proj1 (proj2 (proj2 (proj2 (proj2 format_follows_priority))))
                 voice_scenario_entry 3%nat).
    reflexivity.
Defined.

(** C7, as stated, fails on the first document of src/index.js: an entry
    with a [file_unique_id] and no [id] is identified by its position. *)
Lemma result_identifier_counterexample :
  ~ (forall a idx,
        result_id (IndexJs1.toInlineResult a idx) = identifier a idx).
Proof.
  intros H. specialize (H unique_id_entry 0%nat). discriminate H.
Qed.

(** C7, amended.  In part_000 and in the second document of src/index.js
    the identifier of every formatted result comes from the entry's [id] if
    it has a non-empty one, otherwise from its [file_unique_id] if it has a
    non-empty one, otherwise from the positional index; in the first
    document it comes from [id], otherwise from the index.  Two results of
    one answer can carry the same identifier, and both are sent. *)
Theorem result_identifier_priority :
  (forall a idx r,
      Part000.toInlineResult a idx = Some r -> result_id r = identifier a idx)
  /\ (forall a idx, result_id (IndexJs2.toInlineResult a idx) = identifier a idx)
  /\ (forall a idx,
        result_id (IndexJs1.toInlineResult a idx) = identifier_id_or_index a idx)
  /\ map result_id (Part000.inline_results colliding_catalog (ctx_with_query None))
     = ["1"; "1"]
  /\ map result_id (IndexJs2.inline_results colliding_catalog (ctx_with_query None))
     = ["1"; "1"]
  /\ map result_id (IndexJs1.inline_results colliding_catalog (ctx_with_query None))
     = ["1"; "1"].
Proof.
  split; [exact Part000_result_id|].
  split; [exact IndexJs2_result_id|].
  split; [exact IndexJs1_result_id|].
  repeat split; reflexivity.
Qed.

Lemma result_identifier_priority_witness :
  Part000.toInlineResult unique_id_entry 3
  = Some (ResUrlAudio "U1" (JStr "http://u") (JStr "Audio") JUndefined JUndefined)
  /\ result_id (ResUrlAudio "U1" (JStr "http://u") (JStr "Audio")
                            JUndefined JUndefined)
     = identifier unique_id_entry 3.
Proof.
  split; [reflexivity|].
  apply (proj1 result_identifier_priority unique_id_entry 3%nat).
  reflexivity.
Defined.

(** ** Traces of calls *)

Section Traces.

Lemma effects_andThen (r k : Run) (e : Effect) :
  In e (fst (r ;; k)) -> In e (fst r) \/ In e (fst k).
Proof.
  destruct r as [es [|]]; simpl; [|auto]. apply in_app_or.
Qed.

Lemma effects_andThen_l (r k : Run) (e : Effect) :
  In e (fst r) -> In e (fst (r ;; k)).
Proof.
  destruct r as [es [|]]; simpl; [|auto]. intros H. apply in_or_app. auto.
Qed.

Lemma effects_andThen_r (r k : Run) (e : Effect) :
  snd r = Resolved -> In e (fst k) -> In e (fst (r ;; k)).
Proof.
  destruct r as [es [|]]; simpl; [|discriminate].
  intros _ H. apply in_or_app. auto.
Qed.

End Traces.

(** Splits a membership hypothesis over a sequence of calls into the single
    calls, and closes the cases where the call is another one. *)
Ltac which_call H :=
  repeat (apply effects_andThen in H; destruct H as [H|H]);
  simpl in H;
  repeat (destruct H as [H|H]; try discriminate H);
  try contradiction.

(** ** The transport selector *)

Section Transport.

(** No request changes the bindings. *)
Lemma serve_bindings (handle : Bindings -> Upstream -> Update -> Run)
      (up : Upstream) (g : Bindings) (rs : list Request) :
  fst (serve handle up g rs) = g.
Proof.
  induction rs as [|r rs IH]; simpl; [reflexivity|].
  destruct r; simpl;
    destruct (serve handle up g rs) as [g2 es2]; simpl in *; exact IH.
Qed.

Lemma strict_eq_str (o : option string) (s : string) :
  strict_eq (of_option o) (JStr s) = true <-> o = Some s.
Proof.
  destruct o as [t|]; simpl.
  - destruct (String.eqb_spec t s); split; congruence.
  - split; discriminate.
Qed.

Lemma falsy_env (o : option string) :
  truthy (of_option o) = false <-> o = None \/ o = Some "".
Proof.
  destruct o as [t|]; simpl.
  - destruct (String.eqb_spec t "") as [->|Hne]; simpl; split; intros H;
      try discriminate H; auto.
    destruct H as [H|H]; [discriminate H|]. congruence.
  - split; auto.
Qed.

Lemma load_USE_POLLING (env : Env) (random_hex : string)
      (file : option (list Entry)) (g : Bindings) :
  Shared.load env random_hex file = Loaded g ->
  USE_POLLING g
  = (strict_eq (of_option (env "USE_POLLING")) (JStr "true")
     || (negb (truthy (of_option (env "WEBHOOK_DOMAIN")))
         && negb (strict_eq (of_option (env "NODE_ENV")) (JStr "production")))).
Proof.
  unfold Shared.load.
  destruct (negb (truthy (of_option (env "BOT_TOKEN")))); [discriminate|].
  destruct file; [|discriminate]. intros [= <-]. reflexivity.
Qed.

(** [main] launches polling exactly when [USE_POLLING] is on. *)
Lemma main_launches (g : Bindings) (up : Upstream) :
  (In Launch (fst (IndexJs1.main g up)) <-> USE_POLLING g = true)
  /\ (In Launch (fst (IndexJs2.main g up)) <-> USE_POLLING g = true)
  /\ (In Launch (fst (Part000.main g up)) <-> USE_POLLING g = true).
Proof.
  unfold IndexJs1.main, IndexJs2.main, Part000.main.
  destruct (USE_POLLING g); repeat split; intros H; try discriminate H.
  - apply effects_andThen_l. now left.
  - apply effects_andThen_r; [reflexivity|]. apply effects_andThen_l. now left.
  - apply effects_andThen_l. now left.
  - which_call H.
  - which_call H.
  - which_call H.
Qed.

(** Every registration of part_000 carries the three update types. *)
Lemma Part000_setWebhook_options (g : Bindings) (up : Upstream)
      (u : string) (allowed : option (list string)) :
  In (SetWebhook u allowed) (fst (Part000.main g up)) ->
  allowed = Some three_update_types.
Proof.
  unfold Part000.main. destruct (USE_POLLING g); intros H; which_call H.
  now injection H.
Qed.

(** Every registration of src/index.js goes without the option. *)
Lemma IndexJs_setWebhook_options (g : Bindings) (up : Upstream)
      (u : string) (allowed : option (list string)) :
  In (SetWebhook u allowed) (fst (IndexJs1.main g up))
  \/ In (SetWebhook u allowed) (fst (IndexJs2.main g up)) ->
  allowed = None.
Proof.
  unfold IndexJs1.main, IndexJs2.main.
  destruct (USE_POLLING g); intros [H|H]; which_call H; now injection H.
Qed.

End Transport.

(** C5.  Once the module is loaded, polling is on exactly when the
    USE_POLLING variable is the string "true", or there is no webhook domain
    (unset or empty) and NODE_ENV is not "production"; [main] of every
    revision launches polling exactly in that case; and the bindings,
    this flag among them, are the same after any sequence of requests. *)
Theorem polling_decided_at_load
        (env : Env) (random_hex : string) (file : option (list Entry))
        (g : Bindings) :
  Shared.load env random_hex file = Loaded g ->
  (USE_POLLING g = true <->
     env "USE_POLLING" = Some "true"
     \/ ((env "WEBHOOK_DOMAIN" = None \/ env "WEBHOOK_DOMAIN" = Some "")
         /\ env "NODE_ENV" <> Some "production"))
  /\ (forall up,
        (In Launch (fst (IndexJs1.main g up)) <-> USE_POLLING g = true)
        /\ (In Launch (fst (IndexJs2.main g up)) <-> USE_POLLING g = true)
        /\ (In Launch (fst (Part000.main g up)) <-> USE_POLLING g = true))
  /\ (forall handle up rs,
        fst (serve handle up g rs) = g
        /\ USE_POLLING (fst (serve handle up g rs)) = USE_POLLING g).
Proof.
  intros Hload. split; [|split].
  - rewrite (load_USE_POLLING _ _ _ _ Hload).
    rewrite orb_true_iff, andb_true_iff, !negb_true_iff.
    rewrite strict_eq_str, falsy_env.
    assert (Hprod : strict_eq (of_option (env "NODE_ENV")) (JStr "production") = false
                    <-> env "NODE_ENV" <> Some "production").
    { rewrite <- strict_eq_str.
      destruct (strict_eq _ _); split; congruence. }
    rewrite Hprod. reflexivity.
  - intros up. apply main_launches.
  - intros handle up rs. now rewrite serve_bindings.
Qed.

Lemma polling_decided_at_load_witness :
  Shared.load polling_env "ab12" (Some scenario_catalog) = Loaded polling_bindings
  /\ (USE_POLLING polling_bindings = true <->
        polling_env "USE_POLLING" = Some "true"
        \/ ((polling_env "WEBHOOK_DOMAIN" = None
             \/ polling_env "WEBHOOK_DOMAIN" = Some "")
            /\ polling_env "NODE_ENV" <> Some "production")).
Proof.
  split; [reflexivity|].
  apply (polling_decided_at_load polling_env "ab12" (Some scenario_catalog)).
  reflexivity.
Defined.

(** C6, as stated, fails on src/index.js: in webhook mode its [main]
    registers the webhook with no restriction of the update types. *)
Lemma webhook_registration_counterexample :
  ~ (forall g up u allowed,
        USE_POLLING g = false ->
        In (SetWebhook u allowed) (fst (IndexJs1.main g up)) ->
        allowed = Some three_update_types).
Proof.
  intros H.
  assert (E : None = Some three_update_types).
  { apply (H webhook_bindings all_resolve
             "https://bot.example/telegraf/s3cret" None eq_refl).
    vm_compute. auto. }
  discriminate E.
Qed.

(** C6, amended.  When polling is off, [main] of part_000 registers the
    webhook URL (the domain without its trailing slash, then the secret
    path), and every registration it makes restricts the update types to
    exactly inline_query, chosen_inline_result and message; [main] of either
    document of src/index.js registers the same URL without restricting the
    update types. *)
Theorem webhook_registration_restricted (g : Bindings) (up : Upstream) :
  USE_POLLING g = false ->
  In (SetWebhook (toString (IndexJs1.domain_of (WEBHOOK_DOMAIN g)) ++ WEBHOOK_PATH g)
                 (Some three_update_types))
     (fst (Part000.main g up))
  /\ (forall u allowed,
        In (SetWebhook u allowed) (fst (Part000.main g up)) ->
        allowed = Some three_update_types)
  /\ In (SetWebhook (toString (IndexJs1.domain_of (WEBHOOK_DOMAIN g)) ++ WEBHOOK_PATH g)
                    None)
        (fst (IndexJs1.main g up))
  /\ In (SetWebhook (toString (IndexJs1.domain_of (WEBHOOK_DOMAIN g)) ++ WEBHOOK_PATH g)
                    None)
        (fst (IndexJs2.main g up))
  /\ (forall u allowed,
        In (SetWebhook u allowed) (fst (IndexJs1.main g up))
        \/ In (SetWebhook u allowed) (fst (IndexJs2.main g up)) ->
        allowed = None).
Proof.
  intros Hmode.
  split; [|split; [exact (Part000_setWebhook_options g up)|split; [|split]]].
  - unfold Part000.main. rewrite Hmode.
    do 2 (apply effects_andThen_r; [reflexivity|]).
    apply effects_andThen_l. now left.
  - unfold IndexJs1.main. rewrite Hmode.
    do 2 (apply effects_andThen_r; [reflexivity|]).
    apply effects_andThen_l. now left.
  - unfold IndexJs2.main. rewrite Hmode.
    do 3 (apply effects_andThen_r; [reflexivity|]).
    apply effects_andThen_l. now left.
  - exact (IndexJs_setWebhook_options g up).
Qed.

Lemma webhook_registration_restricted_witness :
  Shared.load webhook_env "ab12" (Some scenario_catalog) = Loaded webhook_bindings
  /\ USE_POLLING webhook_bindings = false
  /\ In (SetWebhook "https://bot.example/telegraf/s3cret"
                    (Some three_update_types))
        (fst (Part000.main webhook_bindings all_resolve)).
Proof.
  split; [reflexivity|]. split; [reflexivity|].
  apply (proj1 (webhook_registration_restricted webhook_bindings all_resolve
                  eq_refl)).
Defined.

(** ** The [/start] command *)

(** C8, as stated, fails on part_000: its [/start] handler does not read
    the payload, and answers "id" with the usage message, not with the
    reply of the [/id] command. *)
Lemma start_payload_counterexample :
  ~ (forall up ctx,
        toLowerCase (or_empty (startPayload ctx)) = "id" ->
        Part000.on_start up ctx = Part000.on_id_command up ctx).
Proof.
  intros H.
  specialize (H all_resolve (start_ctx (Some "id")) eq_refl).
  vm_compute in H. discriminate H.
Qed.

(** C8, amended.  In the ingestion variant (second document of
    src/index.js), a [/start] whose payload lower-cases to "id" or "getid"
    is handled exactly as the [/id] command: one reply with the chat's
    identifier and type and the sender's identifier and username, failures
    swallowed; any other payload, or none, gets the static usage message.
    In the first document and in part_000, [/start] gets the static usage
    message whatever the payload. *)
Theorem start_payload_dispatch (up : Upstream) (ctx : Ctx) :
  (toLowerCase (or_empty (startPayload ctx)) = "id"
   \/ toLowerCase (or_empty (startPayload ctx)) = "getid" ->
   IndexJs2.on_start up ctx = IndexJs2.on_id_command up ctx
   /\ IndexJs2.on_start up ctx = ([Reply (IndexJs2.formatIds ctx)], Resolved))
  /\ (toLowerCase (or_empty (startPayload ctx)) <> "id" ->
      toLowerCase (or_empty (startPayload ctx)) <> "getid" ->
      IndexJs2.on_start up ctx = await up (Reply IndexJs2.usage))
  /\ (forall c u,
        chat ctx = Some c -> from ctx = Some u ->
        IndexJs2.formatIds ctx
        = "chat_id: " ++ toString (JNum (chat_id c)) ++ " (" ++ chat_type c ++ ")"
          ++ nl
          ++ "user_id: " ++ toString (JNum (user_id u))
          ++ match username u with
             | Some name => if String.eqb name "" then "" else " (@" ++ name ++ ")"
             | None => ""
             end)
  /\ IndexJs1.on_start up ctx = await up (Reply IndexJs1.usage)
  /\ Part000.on_start up ctx = await up (Reply Part000.usage).
Proof.
  unfold IndexJs2.on_start, IndexJs2.on_id_command.
  split; [|split; [|split; [|split; reflexivity]]].
  - intros [H|H]; rewrite H; simpl; split; reflexivity.
  - intros Hid Hget.
    destruct (String.eqb_spec (toLowerCase (or_empty (startPayload ctx))) "id");
      [contradiction|].
    destruct (String.eqb_spec (toLowerCase (or_empty (startPayload ctx))) "getid");
      [contradiction|].
    reflexivity.
  - intros c u Hc Hu. unfold IndexJs2.formatIds, IndexJs2.push.
    rewrite Hc, Hu. cbn [app join]. rewrite !append_assoc.
    destruct (username u) as [name|]; cbn [of_option truthy or_empty];
      [|reflexivity].
    destruct (String.eqb name ""); reflexivity.
Qed.

Lemma start_payload_dispatch_witness :
  toLowerCase (or_empty (startPayload (start_ctx (Some "GetID")))) = "getid"
  /\ IndexJs2.on_start all_resolve (start_ctx (Some "GetID"))
     = IndexJs2.on_id_command all_resolve (start_ctx (Some "GetID"))
  /\ toLowerCase (or_empty (startPayload (start_ctx None))) <> "id"
  /\ toLowerCase (or_empty (startPayload (start_ctx None))) <> "getid"
  /\ IndexJs2.on_start all_resolve (start_ctx None)
     = await all_resolve (Reply IndexJs2.usage).
Proof.
  split; [reflexivity|]. split.
  - apply (proj1 (start_payload_dispatch all_resolve (start_ctx (Some "GetID")))).
    right. reflexivity.
  - split; [discriminate|]. split; [discriminate|].
    apply (proj1 (proj2 (start_payload_dispatch all_resolve (start_ctx None))));
      discriminate.
Defined.

(** ** Scenarios of the specification, run on part_000 *)

Example scenario_query_a :
  Part000.inline_results scenario_catalog (ctx_with_query (Some "a"))
  = [ResUrlAudio "0" (JStr "http://a") (JStr "Song A") (JStr "X") JUndefined].
Proof. reflexivity. Qed.

Example scenario_empty_query_limit_1 :
  Part000.searchAudios scenario_catalog (JStr "") 1
  = [entry_of [("title", JStr "Song A"); ("performer", JStr "X");
               ("url", JStr "http://a")]].
Proof. reflexivity. Qed.

Example scenario_start_id :
  IndexJs2.on_start all_resolve (start_ctx (Some "ID"))
  = ([Reply ("chat_id: 42 (private)" ++ nl ++ "user_id: 7 (@starlord)")],
     Resolved).
Proof. reflexivity. Qed.

(** A negative limit is a position counted from the end of the array. *)
Example negative_limit :
  List.length (Shared.searchAudios scenario_catalog (JStr "") (-1)) = 1%nat.
Proof. reflexivity. Qed.

(** Lines 1-47 render an absent title as the text "undefined", which a
    query can then hit; line 167 of the ingestion variant renders it
    empty. *)
Example absent_title_in_haystack :
  Shared.searchAudios [unique_id_entry] (JStr "undef") 25 = [unique_id_entry]
  /\ IndexJs2.searchAudios [unique_id_entry] (JStr "undef") 25 = [].
Proof. split; reflexivity. Qed.

(* ================================================================== *)
(** * Further properties of the code *)

(** ** Slices and subsequences *)

Section SliceFacts.

Context {A : Type}.

Lemma Subseq_refl (l : list A) : Subseq l l.
Proof. induction l; constructor; assumption. Qed.

Lemma Subseq_trans (l1 l2 l3 : list A) :
  Subseq l1 l2 -> Subseq l2 l3 -> Subseq l1 l3.
Proof.
  intros H12 H23. revert l1 H12.
  induction H23 as [|x l2 l3 H IH|x l2 l3 H IH]; intros l1 H12.
  - exact H12.
  - constructor. now apply IH.
  - inversion H12; subst.
    + constructor. now apply IH.
    + apply Subseq_take. now apply IH.
Qed.

Lemma Subseq_filter (f : A -> bool) (l : list A) : Subseq (filter f l) l.
Proof.
  induction l as [|a l IH]; simpl; [constructor|].
  destruct (f a); constructor; exact IH.
Qed.

Lemma Subseq_nil_l (l : list A) : Subseq [] l.
Proof. induction l; constructor; assumption. Qed.

Lemma Subseq_firstn (n : nat) (l : list A) : Subseq (firstn n l) l.
Proof.
  revert l. induction n as [|n IH]; intros l; [apply Subseq_nil_l|].
  destruct l as [|a l]; simpl; [constructor|]. apply Subseq_take, IH.
Qed.

Lemma Subseq_skipn (n : nat) (l : list A) : Subseq (skipn n l) l.
Proof.
  revert l. induction n as [|n IH]; intros [|a l]; simpl;
    try apply Subseq_refl. constructor. apply IH.
Qed.

Lemma Subseq_slice (arr : list A) (s e : Z) : Subseq (slice arr s e) arr.
Proof.
  unfold slice. eapply Subseq_trans; [apply Subseq_firstn|apply Subseq_skipn].
Qed.

Lemma Subseq_In (l1 l2 : list A) (a : A) : Subseq l1 l2 -> In a l1 -> In a l2.
Proof.
  induction 1 as [|x l1 l2 H IH|x l1 l2 H IH]; simpl; intuition.
Qed.

Lemma Subseq_NoDup (l1 l2 : list A) : Subseq l1 l2 -> NoDup l2 -> NoDup l1.
Proof.
  induction 1 as [|x l1 l2 H IH|x l1 l2 H IH]; intros Hnd.
  - constructor.
  - inversion Hnd; subst. now apply IH.
  - inversion Hnd; subst. constructor; [|now apply IH].
    intros Hin. apply (Subseq_In _ _ _ H) in Hin. contradiction.
Qed.

(** [arr.slice(0, n)] in terms of [firstn], for every integer [n]. *)
Lemma slice_0 (arr : list A) (n : Z) :
  slice arr 0 n
  = firstn (if n <? 0
            then (List.length arr - Z.to_nat (- n))%nat
            else Z.to_nat n) arr.
Proof.
  unfold slice, clamp_index. cbv zeta.
  replace (0 <? 0) with false by reflexivity.
  rewrite (Z.min_l 0) by lia. rewrite Z.sub_0_r. cbn [Z.to_nat skipn].
  destruct (n <? 0) eqn:Hn.
  - apply Z.ltb_lt in Hn. f_equal. lia.
  - apply Z.ltb_ge in Hn.
    destruct (Z.min_spec n (Z.of_nat (List.length arr))) as [[Hlt ->]|[Hge ->]].
    + reflexivity.
    + rewrite Nat2Z.id, firstn_all. symmetry. apply firstn_all2. lia.
Qed.

Lemma slice_all (arr : list A) (n : Z) :
  Z.of_nat (List.length arr) <= n -> slice arr 0 n = arr.
Proof.
  intros H. rewrite slice_0.
  destruct (n <? 0) eqn:Hn; [apply Z.ltb_lt in Hn; lia|].
  apply firstn_all2. lia.
Qed.

Lemma filter_length_le (f : A -> bool) (l : list A) :
  (List.length (filter f l) <= List.length l)%nat.
Proof.
  induction l as [|a l IH]; simpl; [lia|]. destruct (f a); simpl; lia.
Qed.

End SliceFacts.

(** ** More on the query matcher *)

Section MatcherMore.

(** What the search of lines 39-47 cuts with [slice]. *)
Lemma Shared_found (lib : list Entry) (q : JsValue) (n : Z) :
  Shared.searchAudios lib q n = slice (found Shared.searchAudios lib q) 0 n.
Proof.
  unfold found, Shared.searchAudios.
  destruct (negb _); rewrite (slice_all _ (Z.of_nat (List.length lib)));
    try reflexivity; try lia.
  pose proof (filter_length_le
    (fun a => includes (Shared.normalize (JStr (Shared.hay a))) (Shared.normalize q))
    lib). lia.
Qed.

Lemma IndexJs2_found (lib : list Entry) (q : JsValue) (n : Z) :
  IndexJs2.searchAudios lib q n = slice (found IndexJs2.searchAudios lib q) 0 n.
Proof.
  unfold found, IndexJs2.searchAudios.
  destruct (negb _); rewrite (slice_all _ (Z.of_nat (List.length lib)));
    try reflexivity; try lia.
  pose proof (filter_length_le
    (fun a => includes (IndexJs2.normalize (JStr (IndexJs2.hay a)))
                       (IndexJs2.normalize q))
    lib). lia.
Qed.

Lemma Shared_found_str (lib : list Entry) (q : string) :
  found Shared.searchAudios lib (JStr q)
  = if String.eqb q "" then lib else filter (matches Shared.hay q) lib.
Proof.
  unfold found. rewrite Shared_searchAudios_str.
  destruct (String.eqb q ""); apply slice_all; [lia|].
  pose proof (filter_length_le (matches Shared.hay q) lib). lia.
Qed.

Lemma IndexJs2_found_str (lib : list Entry) (q : string) :
  found IndexJs2.searchAudios lib (JStr q)
  = if String.eqb q "" then lib else filter (matches IndexJs2.hay q) lib.
Proof.
  unfold found. rewrite IndexJs2_searchAudios_str.
  destruct (String.eqb q ""); apply slice_all; [lia|].
  pose proof (filter_length_le (matches IndexJs2.hay q) lib). lia.
Qed.

Lemma includes_trans (s t u : string) :
  includes s t = true -> includes t u = true -> includes s u = true.
Proof.
  rewrite !includes_iff. intros [p1 [r1 H1]] [p2 [r2 H2]]. subst.
  exists (p1 ++ p2), (r2 ++ r1). now rewrite !append_assoc.
Qed.

Lemma includes_empty_l (t : string) : includes "" t = true -> t = "".
Proof.
  rewrite includes_iff. intros [p [r H]].
  destruct p; [|discriminate H]. destruct t; [reflexivity|discriminate H].
Qed.

Lemma truthy_str (s : string) : truthy (JStr s) = false <-> s = "".
Proof.
  simpl. destruct (String.eqb_spec s ""); simpl; split; congruence.
Qed.

End MatcherMore.

(** X1.  Whatever the query value and whatever the limit, negative ones
    included, the search returns a subsequence of the catalog: catalog
    entries only, in catalog order, none repeated more often than in the
    catalog. *)
Theorem searchAudios_subsequence (lib : list Entry) (q : JsValue) (n : Z) :
  Subseq (Shared.searchAudios lib q n) lib
  /\ Subseq (IndexJs2.searchAudios lib q n) lib.
Proof.
  unfold Shared.searchAudios, IndexJs2.searchAudios.
  split; destruct (negb _); try apply Subseq_slice;
    (eapply Subseq_trans; [apply Subseq_slice|apply Subseq_filter]).
Qed.

(** X2.  With a limit [n >= 0] the search returns at most [n] entries; in
    particular the limit 0 returns none. *)
Theorem searchAudios_at_most_limit (lib : list Entry) (q : JsValue) (n : Z) :
  0 <= n ->
  (List.length (Shared.searchAudios lib q n) <= Z.to_nat n)%nat
  /\ (List.length (IndexJs2.searchAudios lib q n) <= Z.to_nat n)%nat
  /\ Shared.searchAudios lib q 0 = []
  /\ IndexJs2.searchAudios lib q 0 = [].
Proof.
  intros Hn. rewrite !Shared_found, !IndexJs2_found, !slice_0.
  destruct (n <? 0) eqn:E; [apply Z.ltb_lt in E; lia|].
  repeat split; try apply firstn_le_length; reflexivity.
Qed.

Lemma searchAudios_at_most_limit_witness :
  0 <= 1
  /\ (List.length (Shared.searchAudios scenario_catalog (JStr "song") 1)
      <= Z.to_nat 1)%nat.
Proof.
  split; [lia|].
  apply (proj1 (searchAudios_at_most_limit scenario_catalog (JStr "song") 1
                  ltac:(lia))).
Defined.



(** X4.  Raising the limit only appends: for [0 <= n <= m] the result for
    the limit [n] is the first [n] entries of the result for the limit
    [m]. *)
Theorem searchAudios_limit_prefix (lib : list Entry) (q : JsValue) (n m : Z) :
  0 <= n -> n <= m ->
  Shared.searchAudios lib q n
  = firstn (Z.to_nat n) (Shared.searchAudios lib q m)
  /\ IndexJs2.searchAudios lib q n
     = firstn (Z.to_nat n) (IndexJs2.searchAudios lib q m).
Proof.
  intros Hn Hm. rewrite !Shared_found, !IndexJs2_found, !slice_0.
  destruct (n <? 0) eqn:En; [apply Z.ltb_lt in En; lia|].
  destruct (m <? 0) eqn:Em; [apply Z.ltb_lt in Em; lia|].
  rewrite !firstn_firstn. split; f_equal; lia.
Qed.

Lemma searchAudios_limit_prefix_witness :
  0 <= 1 /\ 1 <= 25
  /\ Shared.searchAudios scenario_catalog (JStr "song") 1
     = firstn (Z.to_nat 1) (Shared.searchAudios scenario_catalog (JStr "song") 25).
Proof.
  split; [lia|]. split; [lia|].
  apply (proj1 (searchAudios_limit_prefix scenario_catalog (JStr "song") 1 25
                  ltac:(lia) ltac:(lia))).
Defined.

(** X5.  On a catalog whose entries all have a non-empty title, the search
    of the ingestion variant (lines 163-171) and the search of lines 39-47
    return the same entries, for every query and every limit. *)
Theorem searchAudios_revisions_agree
        (lib : list Entry) (q : JsValue) (n : Z) :
  forallb (fun a => truthy (title a)) lib = true ->
  IndexJs2.searchAudios lib q n = Shared.searchAudios lib q n.
Proof.
  intros Hlib. unfold IndexJs2.searchAudios, Shared.searchAudios,
    IndexJs2.normalize.
  destruct (negb _); [reflexivity|]. f_equal.
  apply (filter_ext_forallb _ _ (fun a => truthy (title a))); [exact Hlib|].
  intros a Ha. unfold IndexJs2.hay, Shared.hay, or. now rewrite Ha.
Qed.

Lemma searchAudios_revisions_agree_witness :
  forallb (fun a => truthy (title a)) scenario_catalog = true
  /\ IndexJs2.searchAudios scenario_catalog (JStr "b") 25
     = Shared.searchAudios scenario_catalog (JStr "b") 25.
Proof.
  split; [reflexivity|].
  apply (searchAudios_revisions_agree scenario_catalog (JStr "b") 25).
  reflexivity.
Defined.

Section CasedSlices.

Variable lower : string -> string.

(** Everything the query matches, before the limit cuts. *)
Lemma Cased_searchAudios_matched (lib : list Entry) (q : string) (n : Z) :
  exists matched,
    Cased.searchAudios lower lib (JStr q) n = slice matched 0 n
    /\ forall a, In a matched <->
                 In a lib /\ (lower q = ""
                              \/ matches_by lower Shared.hay q a = true).
Proof.
  rewrite Cased_searchAudios_str.
  destruct (String.eqb_spec (lower q) "") as [E|E].
  - exists lib. split; [reflexivity|]. intuition.
  - exists (filter (matches_by lower Shared.hay q) lib).
    split; [reflexivity|]. intros a. rewrite filter_In. intuition.
Qed.

Lemma Cased_searchAudios_ingest_matched (lib : list Entry) (q : string) (n : Z) :
  exists matched,
    Cased.searchAudios_ingest lower lib (JStr q) n = slice matched 0 n
    /\ forall a, In a matched <->
                 In a lib /\ (lower q = ""
                              \/ matches_by lower IndexJs2.hay q a = true).
Proof.
  rewrite Cased_searchAudios_ingest_str.
  destruct (String.eqb_spec (lower q) "") as [E|E].
  - exists lib. split; [reflexivity|]. intuition.
  - exists (filter (matches_by lower IndexJs2.hay q) lib).
    split; [reflexivity|]. intros a. rewrite filter_In. intuition.
Qed.

(** A slice shorter than its limit has cut nothing. *)
Lemma slice_not_cut {A : Type} (arr : list A) (n : Z) :
  Z.of_nat (List.length (slice arr 0 n)) < n -> slice arr 0 n = arr.
Proof.
  rewrite slice_0. intros H.
  destruct (n <? 0) eqn:E; [apply Z.ltb_lt in E; lia|].
  apply firstn_all2. rewrite length_firstn in H. lia.
Qed.

End CasedSlices.

(** X6.  With a limit of at least the catalog size nothing is cut: an entry
    is returned exactly when it is in the catalog and either the normalized
    query is empty or the entry's lower-cased haystack contains it,
    whatever the engine's lower-casing does. *)
Theorem searchAudios_complete
        (lower : string -> string) (lib : list Entry) (q : JsValue) (n : Z)
        (a : Entry) :
  Z.of_nat (List.length lib) <= n ->
  (In a (Cased.searchAudios lower lib q n) <->
   In a lib /\ (Cased.normalize lower q = ""
                \/ includes (lower (Shared.hay a)) (Cased.normalize lower q) = true))
  /\ (In a (Cased.searchAudios_ingest lower lib q n) <->
      In a lib /\ (Cased.normalize lower q = ""
                   \/ includes (lower (IndexJs2.hay a)) (Cased.normalize lower q) = true)).
Proof.
  intros Hn. unfold Cased.searchAudios, Cased.searchAudios_ingest.
  destruct (negb (truthy (JStr (Cased.normalize lower q)))) eqn:E.
  - apply negb_true_iff, truthy_str in E.
    rewrite (slice_all lib n Hn). split; split; intuition.
  - apply negb_false_iff in E.
    assert (Hq : Cased.normalize lower q <> "").
    { intros Hq. apply truthy_str in Hq. congruence. }
    split.
    + rewrite slice_all.
      * rewrite filter_In, Cased_normalize_str. intuition.
      * pose proof (filter_length_le
          (fun a => includes (Cased.normalize lower (JStr (Shared.hay a)))
                             (Cased.normalize lower q)) lib). lia.
    + rewrite slice_all.
      * rewrite filter_In, Cased_normalize_str. intuition.
      * pose proof (filter_length_le
          (fun a => includes (Cased.normalize lower (JStr (IndexJs2.hay a)))
                             (Cased.normalize lower q)) lib). lia.
Qed.

Lemma searchAudios_complete_witness :
  Z.of_nat (List.length scenario_catalog) <= 25
  /\ In song_a_entry scenario_catalog
  /\ includes (toLowerCase (Shared.hay song_a_entry))
              (Cased.normalize toLowerCase (JStr "SONG")) = true
  /\ In song_a_entry
        (Cased.searchAudios toLowerCase scenario_catalog (JStr "SONG") 25).
Proof.
  split; [vm_compute; discriminate|]. split; [now left|].
  split; [reflexivity|].
  apply (proj1 (searchAudios_complete toLowerCase scenario_catalog
                  (JStr "SONG") 25 song_a_entry
                  ltac:(vm_compute; discriminate))).
  split; [now left|right; reflexivity].
Defined.

(** X7.  Shortening a query loses no entry unless the limit cuts: when the
    lower-cased [q'] occurs in the lower-cased [q] and the search for [q']
    returns fewer entries than its limit, every entry returned for [q] is
    returned for [q'], whatever the engine's lower-casing does. *)
Theorem searchAudios_shorter_query
        (lower : string -> string) (lib : list Entry) (q q' : string) (n : Z)
        (a : Entry) :
  includes (lower q) (lower q') = true ->
  (Z.of_nat (List.length (Cased.searchAudios lower lib (JStr q') n)) < n ->
   In a (Cased.searchAudios lower lib (JStr q) n) ->
   In a (Cased.searchAudios lower lib (JStr q') n))
  /\ (Z.of_nat (List.length (Cased.searchAudios_ingest lower lib (JStr q') n)) < n ->
      In a (Cased.searchAudios_ingest lower lib (JStr q) n) ->
      In a (Cased.searchAudios_ingest lower lib (JStr q') n)).
Proof.
  intros Hsub.
  assert (Hkeep : forall hay,
             lower q = "" \/ matches_by lower hay q a = true ->
             lower q' = "" \/ matches_by lower hay q' a = true).
  { intros hay [E|Hm].
    - left. rewrite E in Hsub. now apply includes_empty_l.
    - right. unfold matches_by in *. exact (includes_trans _ _ _ Hm Hsub). }
  split.
  - destruct (Cased_searchAudios_matched lower lib q n) as [M [-> HM]].
    destruct (Cased_searchAudios_matched lower lib q' n) as [M' [-> HM']].
    intros Hcut Hin. rewrite (slice_not_cut _ _ Hcut).
    apply In_slice, HM in Hin. apply HM'. intuition.
  - destruct (Cased_searchAudios_ingest_matched lower lib q n) as [M [-> HM]].
    destruct (Cased_searchAudios_ingest_matched lower lib q' n) as [M' [-> HM']].
    intros Hcut Hin. rewrite (slice_not_cut _ _ Hcut).
    apply In_slice, HM in Hin. apply HM'. intuition.
Qed.

Lemma searchAudios_shorter_query_witness :
  includes (toLowerCase "Song A") (toLowerCase "ng") = true
  /\ Z.of_nat (List.length
                 (Cased.searchAudios toLowerCase scenario_catalog (JStr "ng") 25))
     < 25
  /\ In song_a_entry
        (Cased.searchAudios toLowerCase scenario_catalog (JStr "Song A") 25)
  /\ In song_a_entry
        (Cased.searchAudios toLowerCase scenario_catalog (JStr "ng") 25).
Proof.
  split; [reflexivity|]. split; [reflexivity|]. split; [now left|].
  apply (proj1 (searchAudios_shorter_query toLowerCase scenario_catalog
                  "Song A" "ng" 25 song_a_entry eq_refl));
    [reflexivity|now left].
Defined.

(** ** More on the inline-query handlers *)

Section HandlerMore.

Lemma IndexJs2_searchAudios_In (lib : list Entry) (q : JsValue) (n : Z)
      (a : Entry) :
  In a (IndexJs2.searchAudios lib q n) -> In a lib.
Proof.
  unfold IndexJs2.searchAudios.
  destruct (negb _); intros H; apply In_slice in H; [exact H|].
  now apply filter_In in H.
Qed.

Lemma Shared_searchAudios_25 (lib : list Entry) (q : JsValue) :
  (List.length (Shared.searchAudios lib q 25) <= 25)%nat.
Proof.
  rewrite Shared_found, slice_0. apply firstn_le_length.
Qed.

Lemma IndexJs2_searchAudios_25 (lib : list Entry) (q : JsValue) :
  (List.length (IndexJs2.searchAudios lib q 25) <= 25)%nat.
Proof.
  rewrite IndexJs2_found, slice_0. apply firstn_le_length.
Qed.

Lemma filter_Boolean_length {A : Type} (arr : list (option A)) :
  (List.length (filter_Boolean arr) <= List.length arr)%nat.
Proof.
  induction arr as [|[x|] arr IH]; simpl; lia.
Qed.

(** Decimal printing tells integers apart. *)
Lemma toString_JNum_inj (n m : Z) :
  toString (JNum n) = toString (JNum m) -> n = m.
Proof.
  simpl. intros H. apply DecimalZ.to_int_inj.
  assert (Hnn : forall z, Z.to_int z <> Decimal.Pos Decimal.Nil
                          /\ Z.to_int z <> Decimal.Neg Decimal.Nil).
  { intros [|p|p]; simpl; split; try discriminate;
      intros [= E]; exact (DecimalPos.Unsigned.to_uint_nonnil p E). }
  apply (f_equal NilZero.int_of_string) in H.
  rewrite !NilZero.isi in H by apply Hnn. now injection H.
Qed.

Lemma index_strings_NoDup (from len : nat) :
  NoDup (map (fun i => toString (JNum (Z.of_nat i))) (seq from len)).
Proof.
  apply NoDup_map_NoDup_ForallPairs; [|apply seq_NoDup].
  intros i j _ _ H. apply toString_JNum_inj in H. lia.
Qed.

Lemma anonymous_identifier (a : Entry) (idx : nat) :
  anonymous a = true -> identifier a idx = toString (JNum (Z.of_nat idx)).
Proof.
  unfold anonymous, identifier. intros H.
  apply andb_prop in H as [Hi Hu]. apply negb_true_iff in Hi, Hu.
  now rewrite Hi, Hu.
Qed.

Lemma anonymous_ids_IndexJs2 (items : list Entry) (from : nat) :
  forallb anonymous items = true ->
  map result_id (map_idx_from IndexJs2.toInlineResult from items)
  = map (fun i => toString (JNum (Z.of_nat i))) (seq from (List.length items)).
Proof.
  revert from. induction items as [|a items IH]; intros from H; simpl;
    [reflexivity|].
  apply andb_prop in H as [Ha Hitems].
  now rewrite IndexJs2_result_id, (anonymous_identifier _ _ Ha), (IH _ Hitems).
Qed.

Lemma anonymous_ids_IndexJs1 (items : list Entry) (from : nat) :
  forallb anonymous items = true ->
  map result_id (map_idx_from IndexJs1.toInlineResult from items)
  = map (fun i => toString (JNum (Z.of_nat i))) (seq from (List.length items)).
Proof.
  revert from. induction items as [|a items IH]; intros from H;
    [reflexivity|].
  cbn [map_idx_from map List.length seq forallb] in *.
  apply andb_prop in H as [Ha Hitems].
  rewrite IndexJs1_result_id, (IH _ Hitems). f_equal.
  unfold identifier_id_or_index. unfold anonymous in Ha.
  apply andb_prop in Ha as [Hi _]. apply negb_true_iff in Hi. now rewrite Hi.
Qed.

Lemma anonymous_ids_Part000 (items : list Entry) (from : nat) :
  forallb anonymous items = true ->
  Subseq (map result_id
              (filter_Boolean (map_idx_from Part000.toInlineResult from items)))
         (map (fun i => toString (JNum (Z.of_nat i)))
              (seq from (List.length items))).
Proof.
  revert from. induction items as [|a items IH]; intros from H; simpl;
    [constructor|].
  apply andb_prop in H as [Ha Hitems].
  destruct (Part000.toInlineResult a from) as [r|] eqn:E; simpl.
  - rewrite (Part000_result_id _ _ _ E), (anonymous_identifier _ _ Ha).
    apply Subseq_take, IH, Hitems.
  - apply Subseq_skip, IH, Hitems.
Qed.

Lemma forallb_incl {A : Type} (p : A -> bool) (l1 l2 : list A) :
  (forall a, In a l1 -> In a l2) -> forallb p l2 = true -> forallb p l1 = true.
Proof.
  intros Hin H. rewrite forallb_forall in *. auto.
Qed.

End HandlerMore.

(** X8.  An answer to an inline query never holds more than 25 results, in
    any revision and for any catalog. *)
Theorem inline_results_at_most_25 (lib : list Entry) (ctx : Ctx) :
  (List.length (IndexJs1.inline_results lib ctx) <= 25)%nat
  /\ (List.length (IndexJs2.inline_results lib ctx) <= 25)%nat
  /\ (List.length (Part000.inline_results lib ctx) <= 25)%nat.
Proof.
  unfold IndexJs1.inline_results, IndexJs2.inline_results,
    Part000.inline_results, map_idx.
  repeat split.
  - rewrite length_map_idx_from. apply Shared_searchAudios_25.
  - rewrite length_map_idx_from. apply IndexJs2_searchAudios_25.
  - eapply Nat.le_trans; [apply filter_Boolean_length|].
    rewrite length_map_idx_from. apply Shared_searchAudios_25.
Qed.

(** X9.  part_000 drops an entry in exactly three cases: it is tagged voice
    and has neither [voice_file_id] nor [file_id]; it is not tagged voice,
    is tagged document and has neither [document_file_id] nor [file_id]; it
    carries no tag and has neither [file_id] nor [url].  A tagged entry is
    thus dropped even when it has a [url]. *)
Theorem toInlineResult_dropped_iff (a : Entry) (idx : nat) :
  Part000.toInlineResult a idx = None <->
  (Part000.voice_tagged a = true
   /\ truthy (voice_file_id a) = false /\ truthy (file_id a) = false)
  \/ (Part000.voice_tagged a = false /\ Part000.document_tagged a = true
      /\ truthy (document_file_id a) = false /\ truthy (file_id a) = false)
  \/ (Part000.voice_tagged a = false /\ Part000.document_tagged a = false
      /\ truthy (file_id a) = false /\ truthy (url a) = false).
Proof.
  unfold Part000.toInlineResult, or.
  destruct (Part000.voice_tagged a), (Part000.document_tagged a),
    (truthy (voice_file_id a)) eqn:Hv, (truthy (document_file_id a)) eqn:Hd,
    (truthy (file_id a)) eqn:Hf, (truthy (url a)) eqn:Hu;
    rewrite ?Hv, ?Hd, ?Hf; simpl;
    split; intros H; try discriminate H; try tauto;
    repeat match goal with
           | H : _ \/ _ |- _ => destruct H
           | H : _ /\ _ |- _ => destruct H
           end; discriminate.
Qed.

(** X10.  When no catalog entry has an [id] or a [file_unique_id], the
    identifiers within one answer are pairwise distinct, in every
    revision: a collision needs an identifier taken from the catalog. *)
Theorem index_identifiers_distinct (lib : list Entry) (ctx : Ctx) :
  forallb anonymous lib = true ->
  NoDup (map result_id (IndexJs1.inline_results lib ctx))
  /\ NoDup (map result_id (IndexJs2.inline_results lib ctx))
  /\ NoDup (map result_id (Part000.inline_results lib ctx)).
Proof.
  intros Hlib.
  assert (HS : forallb anonymous (Shared.searchAudios lib (query_of ctx) 25) = true)
    by (eapply forallb_incl; [apply Shared_searchAudios_In|exact Hlib]).
  assert (HI : forallb anonymous (IndexJs2.searchAudios lib (query_of ctx) 25) = true)
    by (eapply forallb_incl; [apply IndexJs2_searchAudios_In|exact Hlib]).
  unfold IndexJs1.inline_results, IndexJs2.inline_results,
    Part000.inline_results, map_idx.
  fold (query_of ctx). repeat split.
  - unfold IndexJs1.searchAudios. rewrite (anonymous_ids_IndexJs1 _ _ HS).
    apply index_strings_NoDup.
  - rewrite (anonymous_ids_IndexJs2 _ _ HI). apply index_strings_NoDup.
  - eapply Subseq_NoDup;
      [apply (anonymous_ids_Part000 _ _ HS)|apply index_strings_NoDup].
Qed.

Lemma index_identifiers_distinct_witness :
  forallb anonymous scenario_catalog = true
  /\ NoDup (map result_id
                (IndexJs2.inline_results scenario_catalog (ctx_with_query None))).
Proof.
  split; [reflexivity|].
  apply (proj1 (proj2 (index_identifiers_distinct scenario_catalog
                         (ctx_with_query None) eq_refl))).
Defined.

(** X11.  part_000 extends the formatter of the ingestion variant: an entry
    that carries no voice or document tag and has a [file_id] or a [url]
    gets in part_000 the very descriptor lines 211-231 of src/index.js give
    it. *)
Theorem Part000_extends_IndexJs2 (a : Entry) (idx : nat) :
  Part000.voice_tagged a = false ->
  Part000.document_tagged a = false ->
  truthy (file_id a) || truthy (url a) = true ->
  Part000.toInlineResult a idx = Some (IndexJs2.toInlineResult a idx).
Proof.
  intros Hv Hd Hm. unfold Part000.toInlineResult, IndexJs2.toInlineResult.
  rewrite Hv, Hd. destruct (truthy (file_id a)); [reflexivity|].
  simpl in Hm. now rewrite Hm.
Qed.

Lemma Part000_extends_IndexJs2_witness :
  Part000.voice_tagged unique_id_entry = false
  /\ Part000.document_tagged unique_id_entry = false
  /\ truthy (file_id unique_id_entry) || truthy (url unique_id_entry) = true
  /\ Part000.toInlineResult unique_id_entry 2
     = Some (IndexJs2.toInlineResult unique_id_entry 2).
Proof.
  do 3 (split; [reflexivity|]).
  apply (Part000_extends_IndexJs2 unique_id_entry 2); reflexivity.
Defined.

(** ** Start-up *)

Section StartUp.

Lemma strip_trailing_slash_app (s : string) :
  strip_trailing_slash (s ++ "/") = s.
Proof.
  induction s as [|c s IH]; [reflexivity|].
  cbn [append strip_trailing_slash].
  destruct (String.eqb_spec (s ++ "/") "") as [E|_].
  - destruct s; discriminate E.
  - rewrite andb_false_r. now rewrite IH.
Qed.

Lemma strip_trailing_slash_id (s : string) :
  (forall t, s <> t ++ "/") -> strip_trailing_slash s = s.
Proof.
  induction s as [|c s IH]; intros H; [reflexivity|].
  cbn [strip_trailing_slash].
  destruct (Ascii.eqb_spec c "/") as [->|Hc]; simpl.
  - destruct (String.eqb_spec s "") as [->|Hs].
    + exfalso. apply (H ""). reflexivity.
    + f_equal. apply IH. intros t ->. apply (H (String "/" t)). reflexivity.
  - f_equal. apply IH. intros t ->. apply (H (String c t)). reflexivity.
Qed.

Lemma secret_of_env (o : option string) (random_hex : string) :
  toString (or (of_option o) (JStr random_hex))
  = match o with
    | Some s => if String.eqb s "" then random_hex else s
    | None => random_hex
    end.
Proof.
  destruct o as [s|]; [|reflexivity]. unfold or. simpl.
  now destruct (String.eqb s "").
Qed.

End StartUp.

(** X12.  Loading ends the process, with exit code 1, exactly when
    BOT_TOKEN is unset or empty or the catalog file cannot be read or
    parsed; otherwise the catalog bound is the parsed file. *)
Theorem load_exits_iff (env : Env) (random_hex : string)
        (file : option (list Entry)) :
  (Shared.load env random_hex file = Exit 1 <->
   env "BOT_TOKEN" = None \/ env "BOT_TOKEN" = Some "" \/ file = None)
  /\ (forall code, Shared.load env random_hex file = Exit code -> code = 1)
  /\ (forall g, Shared.load env random_hex file = Loaded g ->
                file = Some (audioLibrary g)).
Proof.
  unfold Shared.load.
  destruct (truthy (of_option (env "BOT_TOKEN"))) eqn:Ht; simpl.
  - assert (Hne : ~ (env "BOT_TOKEN" = None \/ env "BOT_TOKEN" = Some "")).
    { intros H. apply falsy_env in H. congruence. }
    destruct file as [lib|]; repeat split; try discriminate; try tauto.
    + intros [H|[H|H]]; try discriminate H; tauto.
    + now intros code [= <-].
    + now intros g [= <-].
  - apply falsy_env in Ht. repeat split; try discriminate; try tauto.
    now intros code [= <-].
Qed.

(** X13.  In webhook mode the URL registered upstream ends in the very path
    the callback is mounted on, "/telegraf/" and then the secret, which is
    WEBHOOK_SECRET when set and not empty and the random draw otherwise. *)
Theorem webhook_path_consistent (env : Env) (random_hex : string)
        (file : option (list Entry)) (g : Bindings) (up : Upstream) :
  Shared.load env random_hex file = Loaded g ->
  USE_POLLING g = false ->
  let secret :=
    match env "WEBHOOK_SECRET" with
    | Some s => if String.eqb s "" then random_hex else s
    | None => random_hex
    end in
  In (AppUseWebhookCallback ("/telegraf/" ++ secret)) (fst (Part000.main g up))
  /\ In (SetWebhook (toString (IndexJs1.domain_of (WEBHOOK_DOMAIN g))
                     ++ "/telegraf/" ++ secret)
                    (Some three_update_types))
        (fst (Part000.main g up)).
Proof.
  intros Hload Hmode secret.
  assert (Hpath : WEBHOOK_PATH g = "/telegraf/" ++ secret).
  { unfold Shared.load in Hload.
    destruct (negb _); [discriminate|]. destruct file; [|discriminate].
    injection Hload as <-. cbn [WEBHOOK_PATH]. now rewrite secret_of_env. }
  unfold Part000.main. rewrite Hmode, Hpath. split.
  - apply effects_andThen_r; [reflexivity|]. apply effects_andThen_l. now left.
  - do 2 (apply effects_andThen_r; [reflexivity|]).
    apply effects_andThen_l. now left.
Qed.

Lemma webhook_path_consistent_witness :
  Shared.load webhook_env "ab12" (Some scenario_catalog) = Loaded webhook_bindings
  /\ USE_POLLING webhook_bindings = false
  /\ In (AppUseWebhookCallback "/telegraf/s3cret")
        (fst (Part000.main webhook_bindings all_resolve)).
Proof.
  split; [reflexivity|]. split; [reflexivity|].
  apply (proj1 (webhook_path_consistent webhook_env "ab12" (Some scenario_catalog)
                  webhook_bindings all_resolve eq_refl eq_refl)).
Defined.

(** X14.  In polling mode [main] never touches the webhook: it registers
    none and mounts neither the JSON parser nor the webhook callback, in
    every revision. *)
Theorem polling_never_registers (g : Bindings) (up : Upstream) (t : list Effect) :
  USE_POLLING g = true ->
  t = fst (IndexJs1.main g up) \/ t = fst (IndexJs2.main g up)
  \/ t = fst (Part000.main g up) ->
  (forall u allowed, ~ In (SetWebhook u allowed) t)
  /\ ~ In AppUseJson t
  /\ (forall path, ~ In (AppUseWebhookCallback path) t).
Proof.
  intros Hmode. unfold IndexJs1.main, IndexJs2.main, Part000.main.
  rewrite Hmode. intros [-> | [-> | ->]]; repeat split; intros; intros H;
    which_call H.
Qed.

Lemma polling_never_registers_witness :
  USE_POLLING polling_bindings = true
  /\ ~ In AppUseJson (fst (Part000.main polling_bindings all_resolve)).
Proof.
  split; [reflexivity|].
  apply (proj1 (proj2 (polling_never_registers polling_bindings all_resolve _
                         eq_refl (or_intror (or_intror eq_refl))))).
Defined.



(** The ingestion variant starts as the first document does, after one
    [getMe] call whose failure changes nothing. *)
Lemma IndexJs2_main_after_getMe (g : Bindings) (up : Upstream) :
  IndexJs2.main g up
  = (GetMe :: fst (IndexJs1.main g up), snd (IndexJs1.main g up)).
Proof.
  unfold IndexJs2.main, IndexJs1.main, try_catch, await, andThen.
  cbn [fst snd app]. reflexivity.
Qed.

(** X16.  One trailing slash of WEBHOOK_DOMAIN is dropped before the path is
    appended: the domains [d ++ "/"] and, when [d] has no trailing slash,
    [d] register the same URL [d ++ WEBHOOK_PATH]. *)
Theorem webhook_url_trailing_slash (g : Bindings) (up : Upstream) (d : string) :
  USE_POLLING g = false ->
  WEBHOOK_DOMAIN g = JStr (d ++ "/")
  \/ (WEBHOOK_DOMAIN g = JStr d /\ forall t, d <> t ++ "/") ->
  In (SetWebhook (d ++ WEBHOOK_PATH g) (Some three_update_types))
     (fst (Part000.main g up))
  /\ In (SetWebhook (d ++ WEBHOOK_PATH g) None) (fst (IndexJs1.main g up))
  /\ In (SetWebhook (d ++ WEBHOOK_PATH g) None) (fst (IndexJs2.main g up)).
Proof.
  intros Hmode Hd.
  assert (E : toString (IndexJs1.domain_of (WEBHOOK_DOMAIN g)) = d).
  { destruct Hd as [->|[-> Hns]]; simpl.
    - apply strip_trailing_slash_app.
    - now apply strip_trailing_slash_id. }
  unfold Part000.main, IndexJs1.main, IndexJs2.main. rewrite Hmode, E.
  repeat split.
  - do 2 (apply effects_andThen_r; [reflexivity|]).
    apply effects_andThen_l. now left.
  - do 2 (apply effects_andThen_r; [reflexivity|]).
    apply effects_andThen_l. now left.
  - do 3 (apply effects_andThen_r; [reflexivity|]).
    apply effects_andThen_l. now left.
Qed.

Lemma webhook_url_trailing_slash_witness :
  USE_POLLING webhook_bindings = false
  /\ WEBHOOK_DOMAIN webhook_bindings = JStr ("https://bot.example" ++ "/")
  /\ In (SetWebhook ("https://bot.example" ++ WEBHOOK_PATH webhook_bindings)
                    (Some three_update_types))
        (fst (Part000.main webhook_bindings all_resolve)).
Proof.
  split; [reflexivity|]. split; [reflexivity|].
  apply (proj1 (webhook_url_trailing_slash webhook_bindings all_resolve
                  "https://bot.example" eq_refl (or_introl eq_refl))).
Defined.

(** X17.  A production deployment without WEBHOOK_DOMAIN is not stopped at
    load: it goes to webhook mode and registers a URL that begins with the
    text "undefined". *)
Theorem production_without_domain (env : Env) (random_hex : string)
        (file : option (list Entry)) (g : Bindings) (up : Upstream) :
  Shared.load env random_hex file = Loaded g ->
  env "WEBHOOK_DOMAIN" = None ->
  env "NODE_ENV" = Some "production" ->
  env "USE_POLLING" <> Some "true" ->
  USE_POLLING g = false
  /\ In (SetWebhook ("undefined" ++ WEBHOOK_PATH g) (Some three_update_types))
        (fst (Part000.main g up))
  /\ In (SetWebhook ("undefined" ++ WEBHOOK_PATH g) None)
        (fst (IndexJs1.main g up)).
Proof.
  intros Hload Hdom Hprod Hflag.
  assert (Hmode : USE_POLLING g = false).
  { rewrite (load_USE_POLLING _ _ _ _ Hload), Hprod.
    destruct (strict_eq (of_option (env "USE_POLLING")) (JStr "true")) eqn:E.
    - apply strict_eq_str in E. contradiction.
    - simpl. apply andb_false_r. }
  assert (Hd : WEBHOOK_DOMAIN g = JUndefined).
  { unfold Shared.load in Hload.
    destruct (negb _); [discriminate|]. destruct file; [|discriminate].
    injection Hload as <-. cbn [WEBHOOK_DOMAIN]. now rewrite Hdom. }
  split; [exact Hmode|].
  unfold Part000.main, IndexJs1.main. rewrite Hmode, Hd. split.
  - do 2 (apply effects_andThen_r; [reflexivity|]).
    apply effects_andThen_l. now left.
  - do 2 (apply effects_andThen_r; [reflexivity|]).
    apply effects_andThen_l. now left.
Qed.

Lemma production_without_domain_witness :
  Shared.load production_env "ab12" (Some scenario_catalog)
  = Loaded production_bindings
  /\ production_env "WEBHOOK_DOMAIN" = None
  /\ production_env "NODE_ENV" = Some "production"
  /\ production_env "USE_POLLING" <> Some "true"
  /\ In (SetWebhook "undefined/telegraf/ab12" (Some three_update_types))
        (fst (Part000.main production_bindings all_resolve)).
Proof.
  split; [reflexivity|]. split; [reflexivity|]. split; [reflexivity|].
  split; [discriminate|].
  apply (proj1 (proj2 (production_without_domain production_env "ab12"
                         (Some scenario_catalog) production_bindings all_resolve
                         eq_refl eq_refl eq_refl ltac:(discriminate)))).
Defined.

(** ** Commands *)

(** X18.  Of all handlers only the usage reply of [/start] can fail: the
    handler rejects exactly when the upstream rejects that reply (in the
    ingestion variant, for a payload other than "id" and "getid"); the
    [/id] command and the inline-query handlers swallow every failure. *)
Theorem only_start_usage_can_fail (g : Bindings) (up : Upstream) (ctx : Ctx) :
  (snd (IndexJs2.on_start up ctx) = Rejected <->
   toLowerCase (or_empty (startPayload ctx)) <> "id"
   /\ toLowerCase (or_empty (startPayload ctx)) <> "getid"
   /\ up (Reply IndexJs2.usage) = false)
  /\ (snd (IndexJs1.on_start up ctx) = Rejected <-> up (Reply IndexJs1.usage) = false)
  /\ (snd (Part000.on_start up ctx) = Rejected <-> up (Reply Part000.usage) = false)
  /\ snd (IndexJs2.on_id_command up ctx) = Resolved
  /\ snd (Part000.on_id_command up ctx) = Resolved
  /\ snd (IndexJs1.on_inline_query g up ctx) = Resolved
  /\ snd (IndexJs2.on_inline_query g up ctx) = Resolved
  /\ snd (Part000.on_inline_query g up ctx) = Resolved.
Proof.
  split; [|split; [|split; [|repeat split]]].
  - unfold IndexJs2.on_start, IndexJs2.replyWithIds, try_catch, await.
    destruct (String.eqb_spec (toLowerCase (or_empty (startPayload ctx))) "id");
      destruct (String.eqb_spec (toLowerCase (or_empty (startPayload ctx))) "getid");
      simpl; try (split; [discriminate|tauto]).
    destruct (up (Reply IndexJs2.usage)); split; try discriminate; try tauto.
    intros [_ [_ H]]. discriminate H.
  - unfold IndexJs1.on_start, await. simpl.
    destruct (up (Reply IndexJs1.usage)); split; congruence.
  - unfold Part000.on_start, await. simpl.
    destruct (up (Reply Part000.usage)); split; congruence.
Qed.

(** X19.  The reply of the [/id] command of the ingestion variant has one
    line per party that is known: it is empty exactly when the update has
    neither a chat nor a sender, and a single line when it has only one of
    them. *)
Theorem formatIds_missing_parties (ctx : Ctx) :
  (IndexJs2.formatIds ctx = "" <-> chat ctx = None /\ from ctx = None)
  /\ (forall c, chat ctx = Some c -> from ctx = None ->
                IndexJs2.formatIds ctx
                = "chat_id: " ++ toString (JNum (chat_id c))
                  ++ " (" ++ chat_type c ++ ")")
  /\ (forall u, chat ctx = None -> from ctx = Some u ->
                IndexJs2.formatIds ctx
                = "user_id: " ++ toString (JNum (user_id u))
                  ++ (if truthy (of_option (username u))
                      then " (@" ++ or_empty (username u) ++ ")"
                      else "")).
Proof.
  unfold IndexJs2.formatIds, IndexJs2.push.
  destruct (chat ctx) as [c|], (from ctx) as [u|]; cbn [app join];
    repeat split; intros; try discriminate; try tauto;
    try match goal with H : _ /\ _ |- _ => destruct H; discriminate end;
    try (match goal with H : Some _ = Some _ |- _ => injection H as <- end;
         reflexivity).
Qed.

Lemma formatIds_missing_parties_witness :
  chat (ctx_with_query None) = None /\ from (ctx_with_query None) = None
  /\ IndexJs2.formatIds (ctx_with_query None) = "".
Proof.
  split; [reflexivity|]. split; [reflexivity|].
  apply (proj1 (formatIds_missing_parties (ctx_with_query None))).
  split; reflexivity.
Defined.

(** ** The direct-message handler *)

Section IngestFacts.

Lemma ends_with_iff (s t : string) :
  Ingest.ends_with s t = true <-> exists pre, s = pre ++ t.
Proof.
  induction s as [|c s IH]; cbn [Ingest.ends_with].
  - rewrite orb_false_r. split.
    + intros H. apply String.eqb_eq in H. now exists "".
    + intros [pre H]. apply String.eqb_eq.
      destruct pre; [exact H|discriminate H].
  - rewrite orb_true_iff, IH. split.
    + intros [H|[pre H]].
      * apply String.eqb_eq in H. now exists "".
      * exists (String c pre). simpl. now rewrite H.
    + intros [[|d pre] H]; simpl in H.
      * left. now apply String.eqb_eq.
      * right. injection H as _ H. now exists pre.
Qed.

Lemma lower_char_dot (c : ascii) : lower_char c = "."%char -> c = "."%char.
Proof.
  destruct c as [[] [] [] [] [] [] [] []]; vm_compute; intros H;
    try reflexivity; discriminate H.
Qed.

Lemma toLowerCase_split (s a b : string) :
  toLowerCase s = a ++ b ->
  exists a' b', s = a' ++ b' /\ toLowerCase a' = a /\ toLowerCase b' = b.
Proof.
  revert s. induction a as [|c a IH]; intros s H.
  - exists "", s. auto.
  - destruct s as [|d s]; [discriminate H|]. simpl in H.
    injection H as Hc H. destruct (IH _ H) as [a' [b' [-> [Ha Hb]]]].
    exists (String d a'), b'. simpl. now rewrite Hc, Ha.
Qed.

Lemma no_dot_lower (s : string) :
  Ingest.no_dot (toLowerCase s) = Ingest.no_dot s.
Proof.
  induction s as [|c s IH]; [reflexivity|]. simpl. rewrite IH. f_equal. f_equal.
  destruct (Ascii.eqb_spec c "."), (Ascii.eqb_spec (lower_char c) ".");
    try reflexivity.
  - subst. exfalso. apply n. reflexivity.
  - exfalso. apply n. now apply lower_char_dot.
Qed.

Lemma no_dot_app_dot (b e : string) :
  Ingest.no_dot (b ++ String "." e) = false.
Proof.
  induction b as [|c b IH]; [reflexivity|].
  cbn [append Ingest.no_dot]. rewrite IH. apply andb_false_r.
Qed.

(** The pattern of line 283 takes off the last extension. *)
Lemma strip_extension_app (base ext : string) :
  Ingest.no_dot ext = true -> ext <> "" ->
  Ingest.strip_extension (base ++ "." ++ ext) = base.
Proof.
  intros Hnd Hne. change ("." ++ ext) with (String "." ext).
  induction base as [|c base IH].
  - cbn [append Ingest.strip_extension]. rewrite Hnd, Ascii.eqb_refl.
    destruct (String.eqb_spec ext ""); [contradiction|reflexivity].
  - cbn [append Ingest.strip_extension]. rewrite no_dot_app_dot, IH.
    now rewrite andb_false_r.
Qed.

Lemma audio_extension_shape (ext : string) :
  In (toLowerCase ext) Ingest.audio_extensions ->
  Ingest.no_dot ext = true /\ ext <> "".
Proof.
  intros H. split.
  - rewrite <- no_dot_lower.
    simpl in H. repeat (destruct H as [<-|H]; [reflexivity|]). contradiction.
  - intros ->. simpl in H.
    repeat (destruct H as [H|H]; [discriminate H|]). contradiction.
Qed.

Lemma has_audio_extension_iff (name : string) :
  Ingest.has_audio_extension name = true <->
  exists base ext,
    name = base ++ "." ++ ext /\ In (toLowerCase ext) Ingest.audio_extensions.
Proof.
  unfold Ingest.has_audio_extension. rewrite existsb_exists. split.
  - intros [e [He Hends]]. apply ends_with_iff in Hends as [pre Hpre].
    apply toLowerCase_split in Hpre as [base [tail [-> [_ Htail]]]].
    destruct tail as [|c ext]; [discriminate Htail|].
    simpl in Htail. injection Htail as Hc Hext.
    apply lower_char_dot in Hc. subst c.
    exists base, ext. split; [reflexivity|]. now rewrite Hext.
  - intros [base [ext [-> Hin]]]. exists (toLowerCase ext). split; [exact Hin|].
    apply ends_with_iff. exists (toLowerCase base).
    now rewrite !toLowerCase_app.
Qed.

Lemma document_accepted_iff_aux (d : Ingest.Document) :
  (exists base ext,
      Ingest.doc_file_name d = Some (base ++ "." ++ ext)
      /\ In (toLowerCase ext) Ingest.audio_extensions) ->
  Ingest.looks_like_audio d = true.
Proof.
  intros [base [ext [H Hin]]]. unfold Ingest.looks_like_audio.
  apply orb_true_iff. right. apply has_audio_extension_iff.
  exists base, ext. rewrite H. auto.
Qed.

Lemma private_chat_test (ctx : Ctx) :
  match chat ctx with
  | Some c => String.eqb (chat_type c) "private"
  | None => false
  end = true <-> private_chat ctx.
Proof.
  unfold private_chat. destruct (chat ctx) as [c|].
  - rewrite String.eqb_eq. split.
    + intros H. now exists c.
    + intros [c' [[= <-] H]]. exact H.
  - split; [discriminate|]. intros [c [H _]]. discriminate H.
Qed.

(** The title of an audio draft is never empty. *)
Lemma audio_entry_title (randomUUID : string) (m : Ingest.Message)
      (audio : Ingest.Audio) :
  exists T, title (Ingest.audio_entry randomUUID m audio) = JStr T /\ T <> "".
Proof.
  unfold Ingest.audio_entry, or. cbn [title].
  destruct (Ingest.audio_title audio) as [t|]; cbn [of_option truthy].
  - destruct (String.eqb_spec t "") as [->|Ht]; cbn [negb].
    + destruct (Ingest.m_caption m) as [c|]; cbn [of_option truthy].
      * destruct (String.eqb_spec c ""); cbn [negb]; eexists; split;
          try reflexivity; try assumption; discriminate.
      * eexists; split; [reflexivity|discriminate].
    + eexists; split; [reflexivity|assumption].
  - destruct (Ingest.m_caption m) as [c|]; cbn [of_option truthy].
    + destruct (String.eqb_spec c ""); cbn [negb]; eexists; split;
        try reflexivity; try assumption; discriminate.
    + eexists; split; [reflexivity|discriminate].
Qed.

End IngestFacts.

(** X20.  The direct-message handler never fails and sends at most one
    message, a reply; outside a private chat it does nothing at all,
    whatever the message holds. *)
Theorem on_message_quiet (JSON_stringify : Entry -> string) (up : Upstream)
        (randomUUID : string) (ctx : Ctx) (m : Ingest.Message) :
  snd (Ingest.on_message JSON_stringify up randomUUID ctx m) = Resolved
  /\ (List.length (fst (Ingest.on_message JSON_stringify up randomUUID ctx m))
      <= 1)%nat
  /\ (forall e,
        In e (fst (Ingest.on_message JSON_stringify up randomUUID ctx m)) ->
        exists text, e = Reply text)
  /\ (~ private_chat ctx ->
      Ingest.on_message JSON_stringify up randomUUID ctx m = done).
Proof.
  unfold Ingest.on_message.
  destruct (match chat ctx with
            | Some c => String.eqb (chat_type c) "private"
            | None => false
            end) eqn:Hp; cbn [negb].
  - apply private_chat_test in Hp.
    destruct (Ingest.m_audio m) as [audio|];
      [|destruct (Ingest.m_document m) as [d|];
        [destruct (Ingest.looks_like_audio d)|];
        destruct (Ingest.m_voice m)];
      simpl; repeat split; auto; try contradiction;
      intros e H; try contradiction;
      destruct H as [<-|[]]; eauto.
  - repeat split; simpl; auto.
    intros e [].
Qed.

Section RoundTrip.

(** An entry that the query matches, with fewer than 25 entries before it
    in the catalog, is among the items searched out, at a position below
    25. *)
Lemma found_within_25 (f : Entry -> bool) (pre post : list Entry) (e : Entry) :
  f e = true -> (List.length pre < 25)%nat ->
  exists idx, (idx < 25)%nat
    /\ nth_error (slice (filter f (pre ++ e :: post)) 0 25) idx = Some e.
Proof.
  intros He Hpre. exists (List.length (filter f pre)).
  pose proof (filter_length_le f pre) as Hle.
  split; [lia|].
  rewrite slice_0. cbn [Z.ltb Z.compare Z.to_nat Pos.to_nat Pos.iter_op].
  rewrite nth_error_firstn.
  destruct (Nat.ltb_spec (List.length (filter f pre)) (Pos.to_nat 25)) as [_|H];
    [|simpl in H; lia].
  rewrite filter_app. cbn [filter]. rewrite He.
  rewrite nth_error_app2 by lia. now rewrite Nat.sub_diag.
Qed.

Lemma query_of_text (qctx : Ctx) (T : string) :
  inlineQuery qctx = Some T -> T <> "" ->
  or (of_option (inlineQuery qctx)) (JStr "") = JStr T.
Proof.
  intros -> HT. unfold or. simpl.
  now destruct (String.eqb_spec T "").
Qed.

End RoundTrip.

(** X21.  Round trip of an audio submission.  In a private chat a message
    with an audio whose [file_id] is not empty is answered with the draft
    entry, whatever else the message holds.  Once that entry is in the
    catalog with fewer than 25 entries before it, an inline query equal to
    its title is answered, by the handler of the ingestion variant and by
    that of part_000, with a cached-audio result carrying that [file_id];
    the result is identified by the audio's [file_unique_id] when it has
    one. *)
Theorem audio_submission_round_trip
        (JSON_stringify : Entry -> string) (up : Upstream) (randomUUID : string)
        (ctx : Ctx) (m : Ingest.Message) (audio : Ingest.Audio) (fid : string) :
  private_chat ctx ->
  Ingest.m_audio m = Some audio ->
  Ingest.audio_file_id audio = Some fid ->
  fid <> "" ->
  let entry := Ingest.audio_entry randomUUID m audio in
  Ingest.on_message JSON_stringify up randomUUID ctx m
  = ([Reply (Ingest.found_audio ++ nl ++ JSON_stringify entry)], Resolved)
  /\ (forall pre post qctx,
        (List.length pre < 25)%nat ->
        inlineQuery qctx = Some (text (title entry)) ->
        (exists idx, (idx < 25)%nat
           /\ In (ResCachedAudio (identifier entry idx) (JStr fid)
                                 (or (caption entry) JUndefined))
                 (IndexJs2.inline_results (pre ++ entry :: post) qctx))
        /\ (exists idx, (idx < 25)%nat
              /\ In (ResCachedAudio (identifier entry idx) (JStr fid)
                                    (or (caption entry) JUndefined))
                    (Part000.inline_results (pre ++ entry :: post) qctx)))
  /\ (forall uid idx,
        Ingest.audio_file_unique_id audio = Some uid -> uid <> "" ->
        identifier entry idx = uid).
Proof.
  intros Hp Ha Hfid Hne entry.
  assert (Hf : file_id entry = JStr fid)
    by (unfold entry, Ingest.audio_entry; cbn [file_id]; now rewrite Hfid).
  assert (Htf : truthy (file_id entry) = true).
  { rewrite Hf. simpl. now destruct (String.eqb_spec fid ""). }
  destruct (audio_entry_title randomUUID m audio) as [T [HT HTne]].
  fold entry in HT.
  assert (Hor : or (JStr T) (JStr "") = JStr T).
  { unfold or. simpl. now destruct (String.eqb_spec T ""). }
  assert (Hm2 : matches IndexJs2.hay T entry = true).
  { unfold matches, IndexJs2.hay. rewrite HT, Hor. cbn [toString].
    rewrite toLowerCase_app. apply includes_iff. exists "". eexists.
    reflexivity. }
  assert (Hm1 : matches Shared.hay T entry = true).
  { unfold matches, Shared.hay. rewrite HT. cbn [toString].
    rewrite toLowerCase_app. apply includes_iff. exists "". eexists.
    reflexivity. }
  assert (Hfmt2 : forall idx,
             IndexJs2.toInlineResult entry idx
             = ResCachedAudio (identifier entry idx) (JStr fid)
                              (or (caption entry) JUndefined)).
  { intros idx. unfold IndexJs2.toInlineResult.
    now rewrite Htf, rid_identifier, Hf. }
  assert (Hfmt0 : forall idx,
             Part000.toInlineResult entry idx
             = Some (ResCachedAudio (identifier entry idx) (JStr fid)
                                    (or (caption entry) JUndefined))).
  { intros idx. unfold Part000.toInlineResult. rewrite rid_identifier.
    replace (Part000.voice_tagged entry) with false by reflexivity.
    replace (Part000.document_tagged entry) with false by reflexivity.
    now rewrite Htf, Hf. }
  split; [|split].
  - unfold Ingest.on_message. apply private_chat_test in Hp.
    rewrite Hp, Ha. reflexivity.
  - intros pre post qctx Hpre Hq. rewrite HT in Hq. cbn [text] in Hq.
    pose proof (query_of_text qctx T Hq HTne) as Hquery.
    split.
    + destruct (found_within_25 _ pre post entry Hm2 Hpre) as [idx [Hidx Hnth]].
      exists idx. split; [exact Hidx|].
      unfold IndexJs2.inline_results, map_idx.
      rewrite Hquery, IndexJs2_searchAudios_str.
      destruct (String.eqb_spec T ""); [contradiction|].
      apply (nth_map_idx_from IndexJs2.toInlineResult 0%nat) in Hnth.
      apply nth_error_In in Hnth. simpl in Hnth. now rewrite Hfmt2 in Hnth.
    + destruct (found_within_25 _ pre post entry Hm1 Hpre) as [idx [Hidx Hnth]].
      exists idx. split; [exact Hidx|].
      unfold Part000.inline_results, Part000.searchAudios, map_idx.
      rewrite Hquery, Shared_searchAudios_str.
      destruct (String.eqb_spec T ""); [contradiction|].
      apply In_filter_Boolean.
      apply (nth_map_idx_from Part000.toInlineResult 0%nat) in Hnth.
      apply nth_error_In in Hnth. simpl in Hnth. now rewrite Hfmt0 in Hnth.
  - intros uid idx Hu Huid.
    assert (Hid : id entry = JStr uid).
    { unfold entry, Ingest.audio_entry, or. cbn [id]. rewrite Hu.
      cbn [of_option truthy].
      destruct (String.eqb_spec uid ""); [contradiction|reflexivity]. }
    unfold identifier. rewrite Hid. cbn [truthy toString].
    destruct (String.eqb_spec uid ""); [contradiction|reflexivity].
Qed.

Lemma audio_submission_round_trip_witness :
  private_chat private_ctx
  /\ Ingest.m_audio audio_message = Some sample_audio
  /\ Ingest.audio_file_id sample_audio = Some "CQACfile"
  /\ "CQACfile" <> ""
  /\ (List.length scenario_catalog < 25)%nat
  /\ exists idx, (idx < 25)%nat
       /\ In (ResCachedAudio
                (identifier (Ingest.audio_entry "uuid-1" audio_message sample_audio)
                            idx)
                (JStr "CQACfile")
                (or (caption (Ingest.audio_entry "uuid-1" audio_message
                                                 sample_audio))
                    JUndefined))
             (IndexJs2.inline_results
                (scenario_catalog
                 ++ Ingest.audio_entry "uuid-1" audio_message sample_audio :: [])
                (ctx_with_query (Some "Song D"))).
Proof.
  assert (Hp : private_chat private_ctx) by (eexists; split; reflexivity).
  split; [exact Hp|]. split; [reflexivity|]. split; [reflexivity|].
  split; [discriminate|]. split; [simpl; lia|].
  apply (proj1 (proj2 (audio_submission_round_trip
                         title_only all_resolve "uuid-1" private_ctx
                         audio_message sample_audio "CQACfile"
                         Hp eq_refl eq_refl ltac:(discriminate)))
               scenario_catalog [] (ctx_with_query (Some "Song D"))
               ltac:(simpl; lia) eq_refl).
Defined.

(** X22.  A document is taken for audio exactly when its MIME type begins
    with "audio/" or its file name ends in a dot and one of mp3, m4a, ogg,
    flac, wav, in any letter case; a document without a file name passes
    only by its MIME type. *)
Theorem document_accepted_iff (d : Ingest.Document) :
  Ingest.looks_like_audio d = true <->
  (exists rest, Ingest.doc_mime_type d = Some ("audio/" ++ rest))
  \/ (exists base ext,
        Ingest.doc_file_name d = Some (base ++ "." ++ ext)
        /\ In (toLowerCase ext) Ingest.audio_extensions).
Proof.
  unfold Ingest.looks_like_audio.
  rewrite orb_true_iff, has_audio_extension_iff. split.
  - intros [H|[base [ext [Hname Hin]]]].
    + left. destruct (Ingest.doc_mime_type d) as [mime|]; [|discriminate H].
      apply prefix_iff in H as [rest ->]. now exists rest.
    + right. exists base, ext. split; [|exact Hin].
      destruct (Ingest.doc_file_name d) as [name|]; simpl in Hname.
      * now rewrite Hname.
      * destruct base; discriminate Hname.
  - intros [[rest H]|[base [ext [H Hin]]]].
    + left. rewrite H. apply prefix_iff. now exists rest.
    + right. exists base, ext. rewrite H. auto.
Qed.

(** X23.  In a private chat, a message without audio whose document is
    named [base.ext], with [ext] one of the five audio extensions in any
    letter case, is answered with a draft entry titled [base]: the last
    extension is taken off the file name, earlier dots stay. *)
Theorem document_submission_title
        (JSON_stringify : Entry -> string) (up : Upstream) (randomUUID : string)
        (ctx : Ctx) (m : Ingest.Message) (d : Ingest.Document)
        (base ext : string) :
  private_chat ctx ->
  Ingest.m_audio m = None ->
  Ingest.m_document m = Some d ->
  Ingest.doc_file_name d = Some (base ++ "." ++ ext) ->
  In (toLowerCase ext) Ingest.audio_extensions ->
  Ingest.on_message JSON_stringify up randomUUID ctx m
  = ([Reply (Ingest.took_file ++ nl
             ++ JSON_stringify (Ingest.document_entry randomUUID m d))],
     Resolved)
  /\ title (Ingest.document_entry randomUUID m d) = JStr base.
Proof.
  intros Hp Ha Hd Hname Hext.
  assert (Hlook : Ingest.looks_like_audio d = true).
  { apply document_accepted_iff_aux. exists base, ext. auto. }
  split.
  - unfold Ingest.on_message. apply private_chat_test in Hp.
    rewrite Hp, Ha, Hd, Hlook. reflexivity.
  - unfold Ingest.document_entry. cbn [title]. rewrite Hname.
    destruct (audio_extension_shape ext Hext) as [Hnd Hne].
    assert (E : or (of_option (Some (base ++ "." ++ ext))) (JStr "Audio")
                = JStr (base ++ "." ++ ext)).
    { unfold or. cbn [of_option truthy].
      destruct (String.eqb_spec (base ++ "." ++ ext) "") as [E|_];
        [|reflexivity].
      destruct base; discriminate E. }
    rewrite E. cbn [toString]. now rewrite strip_extension_app.
Qed.

Lemma document_submission_title_witness :
  private_chat private_ctx
  /\ Ingest.m_audio document_message = None
  /\ Ingest.m_document document_message = Some sample_document
  /\ Ingest.doc_file_name sample_document = Some ("My.Track" ++ "." ++ "MP3")
  /\ In (toLowerCase "MP3") Ingest.audio_extensions
  /\ title (Ingest.document_entry "uuid-1" document_message sample_document)
     = JStr "My.Track".
Proof.
  assert (Hp : private_chat private_ctx) by (eexists; split; reflexivity).
  split; [exact Hp|]. do 3 (split; [reflexivity|]). split; [now left|].
  apply (proj2 (document_submission_title
                  title_only all_resolve "uuid-1" private_ctx document_message
                  sample_document "My.Track" "MP3"
                  Hp eq_refl eq_refl eq_refl (or_introl eq_refl))).
Defined.
